(** * Videomass: the concat demuxer check and the slideshow timing

    A shallow embedding of two pieces of the Videomass panels:

    - [compare_media_param] of [videomass/vdms_panels/concatenate.py],
      which decides whether the files handed to the concat demuxer have
      the same indexed streams;
    - [build_command_slideshow], [build_command_loop_image] and
      [get_args_line] of [videomass/vdms_panels/sequence_to_video.py],
      which compute the duration, the still image interval and the clock
      of a slideshow or of a static video.

    Python dictionaries read with [.get] are finite maps ([gmap]); the
    dictionary [com], of which the first inserted value is read back, is
    an association list in insertion order. *)

From Stdlib Require Import Ascii String QArith Qround Qabs Lqa.
From stdpp Require Import base decidable option list gmap strings pretty.

Local Open Scope Z_scope.
Local Open Scope string_scope.

(** ** Python values *)

(** The JSON values FFprobe reports for the keys read here: an absent
    key reads as [None] through [dict.get], numbers such as ["width"] are
    integers, names and ["sample_rate"] are strings. *)
Inductive pyval : Type :=
| PyNone
| PyInt (z : Z)
| PyStr (s : string).

#[global] Instance pyval_eq_dec : EqDecision pyval.
Proof. solve_decision. Defined.

Definition pyval_enc (v : pyval) : option (Z + string) :=
  match v with
  | PyNone => None
  | PyInt z => Some (inl z)
  | PyStr s => Some (inr s)
  end.

Definition pyval_dec (o : option (Z + string)) : pyval :=
  match o with
  | None => PyNone
  | Some (inl z) => PyInt z
  | Some (inr s) => PyStr s
  end.

#[global] Instance pyval_countable : Countable pyval.
Proof.
  refine (inj_countable' pyval_enc pyval_dec _).
  intros []; reflexivity.
Defined.

(** The double quote character, for the messages and commands that
    carry one. *)
Definition dquote : string := String (ascii_of_nat 34) "".

(** [str(v)], as an f-string renders a value. *)
Definition py_str (v : pyval) : string :=
  match v with
  | PyNone => "None"
  | PyInt z => pretty z
  | PyStr s => s
  end.

(** A JSON object of the probe, read with [.get]. *)
Abbreviation pydict := (gmap string pyval).

(** [d.get(k)]: the value at [k], [None] for an absent key. *)
Definition get (k : string) (d : pydict) : pyval := default PyNone (d !! k).

(** ** concatenate.py *)

Module Concatenate.

(** One entry of [data]: the FFprobe output for a file, with its
    ['format'] object and its ['streams'] list, the two keys every probe
    carries (on a record without them the Python raises before any
    comparison). *)
Record probe : Type := Probe {
  format : pydict;
  streams : list pydict
}.

(** The value [com[name]]: stream index to [[codec_name, size]] or
    [[codec_name, sample_rate]]. Equality of two such dictionaries in
    Python is equality of the finite maps. *)
Abbreviation signature := (gmap pyval (list pyval)).

(** The dictionary [com] in insertion order. *)
Abbreviation comdict := (list (pyval * signature)).

(** [com[k] = v]: an existing key keeps its place and takes the new
    value, a new key goes to the end. *)
Fixpoint setitem (k : pyval) (v : signature) (com : comdict) : comdict :=
  match com with
  | [] => [(k, v)]
  | (k', v') :: com' =>
      if decide (k = k') then (k, v) :: com' else (k', v') :: setitem k v com'
  end.

(** [com.values()] *)
Definition values (com : comdict) : list signature := snd <$> com.

(** The size string [f"{items.get('width')}x{items.get('height')}"]. *)
Definition size_str (items : pydict) : string :=
  py_str (get "width" items) +:+ "x" +:+ py_str (get "height" items).

(** The body of the loop over [streams.get('streams')], on the dictionary
    [com[name]]: the two [if]s of the source in their order. *)
Definition stream_step (sig : signature) (items : pydict) : signature :=
  let sig1 :=
    if decide (get "codec_type" items = PyStr "video")
    then <[get "index" items := [get "codec_name" items; PyStr (size_str items)]]> sig
    else sig in
  if decide (get "codec_type" items = PyStr "audio")
  then <[get "index" items := [get "codec_name" items; get "sample_rate" items]]> sig1
  else sig1.

(** The dictionary [com[name]] once the inner loop has run over the
    streams of a file; it starts from [com[name] = {}]. *)
Definition file_signature (f : probe) : signature :=
  foldl stream_step ∅ (streams f).

(** [streams.get('format').get('filename')] *)
Definition file_name (f : probe) : pyval := get "filename" (format f).

(** The body of the loop over [data]. *)
Definition file_step (com : comdict) (f : probe) : comdict :=
  setitem (file_name f) (file_signature f) com.

Definition build_com (data : list probe) : comdict := foldl file_step [] data.

Definition msg_two_files : string :=
  "At least two files are required to perform concatenation.".
Definition msg_invalid_data : string := "Invalid data found".
Definition msg_mismatch : string :=
  "The files do not have the same " +:+ dquote +:+ "codec_types" +:+ dquote
  +:+ ", same " +:+ dquote +:+ "sample_rate" +:+ dquote
  +:+ " or same " +:+ dquote +:+ "width" +:+ dquote
  +:+ " or " +:+ dquote +:+ "height" +:+ dquote +:+ ". Unable to proceed.".

(** [compare_media_param(data)]: [None] when the files can be
    concatenated, the error message otherwise. *)
Definition compare_media_param (data : list probe) : option string :=
  if decide (length data = 1%nat) then Some msg_two_files
  else
    let com := build_com data in
    match values com with
    | [] => Some msg_invalid_data
    | totest :: _ =>
        if forallb (fun val => bool_decide (val = totest)) (values com)
        then None
        else Some msg_mismatch
    end.

End Concatenate.

(** ** Python numbers and strings used by sequence_to_video.py *)

(** [round(x)] on a float: the nearest integer, a tie going to the even
    one. A float is modelled by the rational it denotes. *)
Definition py_round (x : Q) : Z :=
  let f := Qfloor x in
  match Qcompare (x - inject_Z f) (1 # 2) with
  | Lt => f
  | Gt => f + 1
  | Eq => if Z.even f then f else f + 1
  end.

(** [n / 1000] on an integer, the true division of Python, as the exact
    quotient. The float Python computes is the double nearest to it, and
    [round] takes both to the same integer for [n] below [2^52] in
    absolute value. *)
Definition div1000 (n : Z) : Q := n # 1000.

(** [bool(s)] on a string. *)
Definition py_truthy (s : string) : bool :=
  match s with
  | "" => false
  | _ => true
  end.

(** The characters [str.split()] treats as white space, among the first
    128. *)
Definition py_isspace (a : ascii) : bool :=
  let n := nat_of_ascii a in
  ((9 <=? n) && (n <=? 13) || (28 <=? n) && (n <=? 32))%nat.

(** [s.split()]: the maximal runs of characters that are not white
    space. *)
Fixpoint py_split (s : string) : list string :=
  match s with
  | "" => []
  | String a rest =>
      if py_isspace a then py_split rest
      else
        match rest with
        | "" => [String a ""]
        | String b _ =>
            if py_isspace b then String a "" :: py_split rest
            else
              match py_split rest with
              | w :: ws => String a w :: ws
              | [] => [String a ""]
              end
        end
  end.

(** Exceptions of the Python code modelled here. *)
Inductive pyexn : Type :=
| IndexError.

(** The outcome of a call: a value, or a raised exception. *)
Inductive pyres (A : Type) : Type :=
| Ret (a : A)
| Raise (e : pyexn).
Arguments Ret {A} a.
Arguments Raise {A} e.

(** [l[i]] on a list. *)
Definition py_index {A : Type} (l : list A) (i : nat) : pyres A :=
  match l !! i with
  | Some x => Ret x
  | None => Raise IndexError
  end.

(** The three functions that sequence_to_video.py imports from
    [videomass.vdms_utils.utils], a module that is not among the sources:
    [get_seconds] (as [getsec]), [get_milliseconds] (as [getms]) and
    [milliseconds2clock] (as [clockms]). The panel is verified for any
    implementation of them. *)
Class Utils : Type := {
  getsec : string -> Q;
  getms : string -> Z;
  clockms : Z -> string
}.

(** ** sequence_to_video.py *)

Module SequenceToVideo.

(** The dictionary [self.opt], whose keys are fixed by [__init__].
    ["Shortest"] and ["Fps"] are two-element lists; ["Interval"] starts as
    a string and later holds an integer. *)
Record options : Type := Options {
  Scale : string;
  Setdar : string;
  Setsar : string;
  RESIZE : string;
  ADuration : Z;
  AudioMerging : string;
  Map : string;
  Shortest : string * string;
  Interval : pyval;
  Clock : string;
  Preinput : string;
  Fps : string * string
}.

(** [self.opt] as [__init__] sets it. *)
Definition init_opt : options :=
  {| Scale := ""; Setdar := ""; Setsar := ""; RESIZE := "";
     ADuration := 0; AudioMerging := ""; Map := "-map 0:v?";
     Shortest := ("", "Disabled"); Interval := PyStr "";
     Clock := "00:00:00:000"; Preinput := "1/0";
     Fps := ("fps=10,", "10") |}.

(** The two values [self.opt["Shortest"]] ever takes. *)
Definition shortest_enabled : string * string := ("-shortest", "Enabled").
Definition shortest_disabled : string * string := ("", "Disabled").

Definition set_Shortest (v : string * string) (o : options) : options :=
  {| Scale := Scale o; Setdar := Setdar o; Setsar := Setsar o;
     RESIZE := RESIZE o; ADuration := ADuration o;
     AudioMerging := AudioMerging o; Map := Map o; Shortest := v;
     Interval := Interval o; Clock := Clock o; Preinput := Preinput o;
     Fps := Fps o |}.

Definition set_Clock (v : string) (o : options) : options :=
  {| Scale := Scale o; Setdar := Setdar o; Setsar := Setsar o;
     RESIZE := RESIZE o; ADuration := ADuration o;
     AudioMerging := AudioMerging o; Map := Map o; Shortest := Shortest o;
     Interval := Interval o; Clock := v; Preinput := Preinput o;
     Fps := Fps o |}.

Definition set_Preinput (v : string) (o : options) : options :=
  {| Scale := Scale o; Setdar := Setdar o; Setsar := Setsar o;
     RESIZE := RESIZE o; ADuration := ADuration o;
     AudioMerging := AudioMerging o; Map := Map o; Shortest := Shortest o;
     Interval := Interval o; Clock := Clock o; Preinput := v;
     Fps := Fps o |}.

Definition set_Interval (v : pyval) (o : options) : options :=
  {| Scale := Scale o; Setdar := Setdar o; Setsar := Setsar o;
     RESIZE := RESIZE o; ADuration := ADuration o;
     AudioMerging := AudioMerging o; Map := Map o; Shortest := Shortest o;
     Interval := v; Clock := Clock o; Preinput := Preinput o;
     Fps := Fps o |}.

(** The audio keys that [on_enable_audio] resets together. *)
Definition clear_audio (o : options) : options :=
  {| Scale := Scale o; Setdar := Setdar o; Setsar := Setsar o;
     RESIZE := RESIZE o; ADuration := 0;
     AudioMerging := ""; Map := "-map 0:v?"; Shortest := shortest_disabled;
     Interval := Interval o; Clock := Clock o; Preinput := Preinput o;
     Fps := Fps o |}.

(** What the methods below read of the panel and of its parent, the
    main frame: [self.parent.time_seq], [self.parent.file_src], the check
    boxes, the text control of the additional parameters and
    [self.opt]. *)
Record panel : Type := Panel {
  time_seq : string;
  file_src : list string;
  ckbx_static_img : bool;
  ckbx_audio : bool;
  ckbx_shortest : bool;
  txt_addparams_enabled : bool;
  txt_addparams : string;
  opt : options
}.

Definition set_opt (o : options) (p : panel) : panel :=
  {| time_seq := time_seq p; file_src := file_src p;
     ckbx_static_img := ckbx_static_img p; ckbx_audio := ckbx_audio p;
     ckbx_shortest := ckbx_shortest p;
     txt_addparams_enabled := txt_addparams_enabled p;
     txt_addparams := txt_addparams p; opt := o |}.

Definition set_ckbx_shortest (b : bool) (p : panel) : panel :=
  {| time_seq := time_seq p; file_src := file_src p;
     ckbx_static_img := ckbx_static_img p; ckbx_audio := ckbx_audio p;
     ckbx_shortest := b;
     txt_addparams_enabled := txt_addparams_enabled p;
     txt_addparams := txt_addparams p; opt := opt p |}.

(** [on_shortest]: the handler of the check box [ckbx_shortest]. *)
Definition on_shortest (self : panel) : panel :=
  if ckbx_shortest self
  then set_opt (set_Shortest shortest_disabled (opt self)) self
  else set_opt (set_Shortest shortest_enabled (opt self)) self.

(** [on_enable_audio]: the handler of the check box [ckbx_audio]; of the
    widgets it touches, [ckbx_shortest] is the one read elsewhere. *)
Definition on_enable_audio (self : panel) : panel :=
  if ckbx_audio self
  then set_opt (set_Shortest shortest_enabled (opt self)) self
  else set_opt (clear_audio (opt self)) (set_ckbx_shortest false self).

(** The text of the additional parameters, when its control is enabled. *)
Definition addparam_of (self : panel) : string :=
  if txt_addparams_enabled self then txt_addparams self else "".

(** The command line [cmd_2] both builders end with. *)
Definition cmd_2_of (self : panel) : string :=
  AudioMerging (opt self) +:+ " " +:+ addparam_of self +:+ " -vf "
  +:+ dquote +:+ fst (Fps (opt self)) +:+ "format=yuv420p" +:+ dquote
  +:+ " " +:+ Map (opt self) +:+ " " +:+ fst (Shortest (opt self)).

(** [framerate]: ['-framerate 1/1' if not sec else f'-framerate 1/{sec}']. *)
Definition framerate_of (sec : Z) : string :=
  if decide (sec = 0) then "-framerate 1/1"
  else "-framerate 1/" +:+ pretty sec.

(** The [timeline] of [get_args_line], from the fourth field of the
    time sequence: a duration of zero is replaced by one second. *)
Definition timeline_of (field : string) : string :=
  if decide (field = "00:00:00.000") then "00:00:01.000" else field.

Section WithUtils.
Context {U : Utils}.

(** [build_command_slideshow(self, timeline)]: the panel with
    [self.opt] updated, and the returned pair [(cmd_2, duration)]. *)
Definition build_command_slideshow (self : panel) (timeline : string)
  : panel * (string * Z) :=
  let loop := "" in
  let '(clock, sec, duration, loop) :=
    if ckbx_audio self then
      if py_truthy (fst (Shortest (opt self))) then
        let duration := getms timeline * Z.of_nat (length (file_src self)) in
        (clockms duration, py_round (getsec timeline), duration, loop)
      else
        let clock := clockms (ADuration (opt self)) in
        (clock, py_round (getsec timeline), ADuration (opt self),
         "-loop 1 -t " +:+ clock)
    else
      let duration := getms timeline * Z.of_nat (length (file_src self)) in
      (clockms duration, py_round (getsec timeline), duration, loop) in
  let framerate := framerate_of sec in
  let o := set_Interval (PyInt sec)
             (set_Preinput (loop +:+ " " +:+ framerate)
                (set_Clock clock (opt self))) in
  let self' := set_opt o self in
  (self', (cmd_2_of self', duration)).

(** [build_command_loop_image(self, timeline)], for a static video. *)
Definition build_command_loop_image (self : panel) (timeline : string)
  : panel * (string * Z) :=
  let '(clock, sec, duration) :=
    if ckbx_audio self then
      if py_truthy (fst (Shortest (opt self))) then
        (timeline, py_round (getsec timeline), getms timeline)
      else
        (clockms (ADuration (opt self)),
         py_round (div1000 (ADuration (opt self))),
         ADuration (opt self))
    else
      let duration := getms timeline in
      (timeline, py_round (div1000 duration), duration) in
  let o := set_Interval (PyInt sec)
             (set_Preinput ("-loop 1 -t " +:+ clock)
                (set_Clock clock (opt self))) in
  let self' := set_opt o self in
  (self', (cmd_2_of self', duration)).

(** [get_args_line(self)]: [self.parent.time_seq.split()[3]] raises
    [IndexError] on a time sequence of fewer than four fields. *)
Definition get_args_line (self : panel) : pyres (panel * (string * Z)) :=
  match py_index (py_split (time_seq self)) 3 with
  | Raise e => Raise e
  | Ret field =>
      let timeline := timeline_of field in
      if ckbx_static_img self
      then Ret (build_command_loop_image self timeline)
      else Ret (build_command_slideshow self timeline)
  end.

End WithUtils.

(** The timing a run leaves behind: the returned duration, and the
    interval and the clock stored in [self.opt]. *)
Record timing : Type := Timing {
  totalDurationMs : Z;
  frameIntervalSeconds : pyval;
  clock : string
}.

Definition timing_of (r : panel * (string * Z)) : timing :=
  {| totalDurationMs := snd (snd r);
     frameIntervalSeconds := Interval (opt (fst r));
     clock := Clock (opt (fst r)) |}.

End SequenceToVideo.

(** ** A model of the time helpers *)

Module ClockModel.

(** [s.split(sep)] on a one-character separator. *)
Fixpoint split_on (sep : ascii) (s : string) : list string :=
  match s with
  | "" => [""]
  | String a rest =>
      if decide (a = sep) then "" :: split_on sep rest
      else
        match split_on sep rest with
        | w :: ws => String a w :: ws
        | [] => [String a ""]
        end
  end.

(** The value of a string of decimal digits, read after [acc]. *)
Fixpoint digits_value (acc : N) (s : string) : option N :=
  match s with
  | "" => Some acc
  | String a rest =>
      match Ascii.is_nat a with
      | Some d => digits_value (10 * acc + N.of_nat d)%N rest
      | None => None
      end
  end.

Definition read_digits (s : string) : option N :=
  match s with
  | "" => None
  | _ => digits_value 0%N s
  end.

(** A sign in front of a field, as [int] and [float] accept one. *)
Definition read_sign (s : string) : bool * string :=
  match s with
  | String "-" rest => (true, rest)
  | String "+" rest => (false, rest)
  | _ => (false, s)
  end.

(** [int(s)] on a decimal field. *)
Definition read_int (s : string) : option Z :=
  let '(neg, body) := read_sign s in
  n ← read_digits body;
  Some (if neg : bool then - Z.of_N n else Z.of_N n).

(** [float(s)] on a decimal field such as ["05.250"], as the rational it
    writes. *)
Definition read_decimal (s : string) : option Q :=
  let '(neg, body) := read_sign s in
  match split_on "." body with
  | [whole] =>
      n ← read_digits whole;
      Some (inject_Z (if neg : bool then - Z.of_N n else Z.of_N n))
  | [whole; frac] =>
      n ← read_digits whole;
      m ← read_digits frac;
      let q := (inject_Z (Z.of_N n)
                + (Z.of_N m # Pos.pow 10 (Pos.of_nat (String.length frac))))%Q in
      Some (if neg : bool then (- q)%Q else q)
  | _ => None
  end.

(** The hours, minutes and seconds of a clock [HH:MM:SS.mmm]. *)
Definition read_clock (t : string) : option (Z * Z * Q) :=
  match split_on ":" t with
  | [h; m; s] =>
      h ← read_int h; m ← read_int m; s ← read_decimal s;
      Some (h, m, s)
  | _ => None
  end.

(** [int(x)] on a float: the integer part, towards zero. *)
Definition py_trunc (x : Q) : Z :=
  if decide (0 <= Qnum x) then Qfloor x else Qceiling x.

(** Modelled from the spec: [get_seconds] of [videomass.vdms_utils.utils]
    is not among the sources. The per-image duration, a clock
    [HH:MM:SS.mmm], converted to seconds; a string that is no clock reads
    as zero. *)
Definition get_seconds (t : string) : Q :=
  match read_clock t with
  | Some (h, m, s) => (inject_Z (h * 3600 + m * 60) + s)%Q
  | None => 0%Q
  end.

(** Modelled from the spec: [get_milliseconds] of
    [videomass.vdms_utils.utils] is not among the sources. The clock
    [HH:MM:SS.mmm] as an integer of milliseconds; a string that is no
    clock reads as zero. *)
Definition get_milliseconds (t : string) : Z :=
  match read_clock t with
  | Some (h, m, s) =>
      py_trunc (inject_Z (h * 3600000 + m * 60000) + s * inject_Z 1000)%Q
  | None => 0
  end.

(** [f"{n:0w}"]: a decimal padded with zeros to the width [w], the sign
    counting in the width. *)
Definition zero_pad (w : nat) (n : Z) : string :=
  let body := pretty (Z.abs n) in
  let sign := if decide (n < 0) then "-" else "" in
  let fill := (w - String.length sign - String.length body)%nat in
  sign +:+ String.concat "" (replicate fill "0") +:+ body.

(** Modelled from the spec: [milliseconds2clock] of
    [videomass.vdms_utils.utils] is not among the sources. Milliseconds
    to [HH:MM:SS.mmm], zero-padded, the hours not rolling over into
    days. *)
Definition milliseconds2clock (ms : Z) : string :=
  let '(sec, msec) := (ms `div` 1000, ms `mod` 1000) in
  let '(min, sec) := (sec `div` 60, sec `mod` 60) in
  let '(hours, min) := (min `div` 60, min `mod` 60) in
  zero_pad 2 hours +:+ ":" +:+ zero_pad 2 min +:+ ":" +:+ zero_pad 2 sec
  +:+ "." +:+ zero_pad 3 msec.

#[local] Instance model : Utils :=
  {| getsec := get_seconds; getms := get_milliseconds;
     clockms := milliseconds2clock |}.

End ClockModel.

(** ** Notions used to state the properties of the slideshow timing *)

Module SequenceToVideoSpec.
Import SequenceToVideo.

(** The panel with another time sequence in the main frame. *)
Definition set_time_seq (ts : string) (p : panel) : panel :=
  {| time_seq := ts; file_src := file_src p;
     ckbx_static_img := ckbx_static_img p; ckbx_audio := ckbx_audio p;
     ckbx_shortest := ckbx_shortest p;
     txt_addparams_enabled := txt_addparams_enabled p;
     txt_addparams := txt_addparams p; opt := opt p |}.

(** The denominator written after [-framerate 1/]. *)
Definition framerate_denominator (sec : Z) : Z :=
  if decide (sec = 0) then 1 else sec.

(** The [loop] fragment of [build_command_slideshow]. *)
Definition slideshow_loop {U : Utils} (self : panel) : string :=
  if ckbx_audio self && negb (py_truthy (fst (Shortest (opt self))))
  then "-loop 1 -t " +:+ clockms (ADuration (opt self))
  else "".

(** Sample panels: a time sequence with the duration [t], [n] image
    files, the two mode check boxes, and the audio keys of [self.opt]. *)
Definition sample_panel (t : string) (n : nat) (static audio : bool)
    (shortest : string * string) (aduration : Z) : panel :=
  {| time_seq := "-ss 00:00:00.000 -t " +:+ t;
     file_src := replicate n "image.png";
     ckbx_static_img := static; ckbx_audio := audio;
     ckbx_shortest := bool_decide (shortest = shortest_disabled) && audio;
     txt_addparams_enabled := false; txt_addparams := "";
     opt := {| Scale := ""; Setdar := ""; Setsar := ""; RESIZE := "";
               ADuration := aduration;
               AudioMerging := if audio then "-i " +:+ dquote +:+ "track.mp3" +:+ dquote else "";
               Map := if audio then "-map 0:v:0 -map 1:a:0" else "-map 0:v?";
               Shortest := shortest; Interval := PyStr "";
               Clock := "00:00:00:000"; Preinput := "1/0";
               Fps := ("fps=10,", "10") |} |}.

End SequenceToVideoSpec.

(** ** Notions used to state the properties of [compare_media_param] *)

Module ConcatenateSpec.
Import Concatenate.

(** The streams the check looks at. *)
Definition is_av (items : pydict) : bool :=
  bool_decide (get "codec_type" items = PyStr "video")
  || bool_decide (get "codec_type" items = PyStr "audio").

(** A file without the streams the check skips. *)
Definition strip (f : probe) : probe :=
  {| format := format f; streams := filter (fun items => is_av items) (streams f) |}.

(** The entry a stream leaves at its index, if any. *)
Definition stream_entry (items : pydict) : option (list pyval) :=
  if decide (get "codec_type" items = PyStr "audio")
  then Some [get "codec_name" items; get "sample_rate" items]
  else if decide (get "codec_type" items = PyStr "video")
  then Some [get "codec_name" items; PyStr (size_str items)]
  else None.

(** [items'] is the video stream [items] with another integer width or
    height. *)
Definition differs_in_geometry (items items' : pydict) : Prop :=
  get "codec_type" items = PyStr "video" ∧
  ∃ w h w' h' : Z,
    get "width" items = PyInt w ∧ get "height" items = PyInt h ∧
    items' = <["width" := PyInt w']> (<["height" := PyInt h']> items) ∧
    (w ≠ w' ∨ h ≠ h').

(** [items'] is the audio stream [items] with another sample rate. *)
Definition differs_in_sample_rate (items items' : pydict) : Prop :=
  get "codec_type" items = PyStr "audio" ∧
  ∃ rate' : pyval,
    items' = <["sample_rate" := rate']> items ∧
    get "sample_rate" items ≠ rate'.

(** No character of the string is the letter x. *)
Fixpoint x_free (s : string) : bool :=
  match s with
  | "" => true
  | String a rest => negb (bool_decide (a = "x"%char)) && x_free rest
  end.

(** Sample probes: an H.264 stream of 1920x1080 with an AAC track, the
    same with a width of 1280, the same with a sample rate of 44100, and
    a file with a subtitle stream only. *)
Definition video_stream (w h : Z) : pydict :=
  {[ "index" := PyInt 0; "codec_type" := PyStr "video";
     "codec_name" := PyStr "h264"; "width" := PyInt w; "height" := PyInt h ]}.

Definition audio_stream (rate : string) : pydict :=
  {[ "index" := PyInt 1; "codec_type" := PyStr "audio";
     "codec_name" := PyStr "aac"; "sample_rate" := PyStr rate ]}.

Definition subtitle_stream : pydict :=
  {[ "index" := PyInt 2; "codec_type" := PyStr "subtitle";
     "codec_name" := PyStr "subrip" ]}.

Definition sample_file (name : string) (ss : list pydict) : probe :=
  {| format := {[ "filename" := PyStr name ]}; streams := ss |}.

Definition clip_a : probe :=
  sample_file "a.mkv" [video_stream 1920 1080; audio_stream "48000"].
Definition clip_b : probe :=
  sample_file "b.mkv" [video_stream 1920 1080; audio_stream "48000"].
Definition clip_b_narrow : probe :=
  sample_file "b.mkv" [video_stream 1280 1080; audio_stream "48000"].
Definition clip_b_rate : probe :=
  sample_file "b.mkv" [video_stream 1920 1080; audio_stream "44100"].
Definition clip_a_subs : probe :=
  sample_file "a.mkv" [video_stream 1920 1080; subtitle_stream; audio_stream "48000"].
Definition subs_a : probe := sample_file "a.srt" [subtitle_stream].
Definition subs_b : probe := sample_file "b.srt" [subtitle_stream].

End ConcatenateSpec.

(** ** Reading [com] and the signatures back *)

Module ConcatenateLookup.
Import Concatenate ConcatenateSpec.

(** [com.get(k)] *)
Fixpoint lookup_com (k : pyval) (com : comdict) : option signature :=
  match com with
  | [] => None
  | (k', v) :: com' => if decide (k = k') then Some v else lookup_com k com'
  end.

(** The entry a stream leaves at the index [k], if it leaves one there. *)
Definition entry_at (k : pyval) (items : pydict) : option (list pyval) :=
  if decide (get "index" items = k) then stream_entry items else None.

(** A file with its streams in another order. *)
Definition with_streams (ss : list pydict) (f : probe) : probe :=
  {| format := format f; streams := ss |}.

End ConcatenateLookup.

(** ** More of Python: exceptions, containment, indexing *)

(** The exceptions the functions below can raise. *)
Inductive exception : Type :=
| Exception_IndexError
| Exception_KeyError
| Exception_TypeError
| Exception_ValueError.

#[global] Instance exception_eq_dec : EqDecision exception.
Proof. solve_decision. Defined.

(** A returned value, or the exception that ended the call. *)
Inductive outcome (A : Type) : Type :=
| Value (a : A)
| Raised (e : exception).
Arguments Value {A} a.
Arguments Raised {A} e.

#[global] Instance outcome_ret : MRet outcome := fun A a => Value a.
#[global] Instance outcome_bind : MBind outcome := fun A B k m =>
  match m with
  | Value a => k a
  | Raised e => Raised e
  end.

(** [sub in s] on two strings: [sub] occurs in [s]. *)
Fixpoint py_contains (sub s : string) : bool :=
  String.prefix sub s ||
  match s with
  | "" => false
  | String _ rest => py_contains sub rest
  end.

(** [sub in v] on a value: a string is searched, [None] and an integer
    are no containers. *)
Definition py_in (sub : string) (v : pyval) : outcome bool :=
  match v with
  | PyStr s => Value (py_contains sub s)
  | PyNone | PyInt _ => Raised Exception_TypeError
  end.

(** [d[k]] on a dictionary. *)
Definition getitem (k : string) (d : pydict) : outcome pyval :=
  match d !! k with
  | Some v => Value v
  | None => Raised Exception_KeyError
  end.

(** [l[i]] on a list. *)
Definition list_getitem {A : Type} (l : list A) (i : nat) : outcome A :=
  match l !! i with
  | Some x => Value x
  | None => Raised Exception_IndexError
  end.

(** [l.index(x)]: the first position of [x]. *)
Definition list_index (x : string) (l : list string) : outcome nat :=
  match list_find (fun y => y = x) l with
  | Some (i, _) => Value i
  | None => Raised Exception_ValueError
  end.

(** The line feed. *)
Definition newline : string := String (ascii_of_nat 10) "".

(** [s.replace(c, new)] for a pattern [c] of one character. *)
Fixpoint replace_char (c : ascii) (new s : string) : string :=
  match s with
  | "" => ""
  | String a rest =>
      if decide (a = c) then new +:+ replace_char c new rest
      else String a (replace_char c new rest)
  end.

(** [s[:-1]] *)
Fixpoint drop_last (s : string) : string :=
  match s with
  | "" => ""
  | String a "" => ""
  | String a rest => String a (drop_last rest)
  end.

(** What a check leaves: nothing ([None] is returned), or a message box
    with the given text, after which [True] is returned. *)
Inductive checked : Type :=
| Passed
| Rejected (msg : string).

#[global] Instance checked_eq_dec : EqDecision checked.
Proof. solve_decision. Defined.

(** ** sequence_to_video.py: the checks and the handlers *)

Module SequenceToVideoPanel.
Import Concatenate SequenceToVideo.

Definition msg_resize : string :=
  "Images need to be resized, please use Resizing function.".

(** [index.get('streams')[0]] *)
Definition first_stream (index : probe) : outcome pydict :=
  list_getitem (streams index) 0.

(** The body of the loop of [check_images_size]: the size to append for
    a file whose first stream has ['video'] in its codec type. *)
Definition image_size (index : probe) : outcome (option string) :=
  s ← first_stream index;
  codec_type ← getitem "codec_type" s;
  is_video ← py_in "video" codec_type;
  if is_video : bool then
    width ← first_stream index ≫= getitem "width";
    height ← first_stream index ≫= getitem "height";
    Value (Some (py_str width +:+ "x" +:+ py_str height))
  else Value None.

(** The list [sizes] after the loop over [flist]. *)
Fixpoint collect_sizes (sizes : list string) (flist : list probe)
  : outcome (list string) :=
  match flist with
  | [] => Value sizes
  | index :: rest =>
      o ← image_size index;
      collect_sizes (sizes ++ option_list o) rest
  end.

(** [check_images_size(flist)] *)
Definition check_images_size (flist : list probe) : outcome checked :=
  sizes ← collect_sizes [] flist;
  if decide (1 < size (list_to_set sizes : gset string))%nat
  then Value (Rejected msg_resize)
  else Value Passed.

Definition msg_select_target : string :=
  "A target file must be selected in the queued files".

(** [file_selection(self)], with [self.parent.filedropselected], which
    is [None] or a file name. The message box of the second case is not
    part of the result. *)
Definition file_selection (self : panel) (filedropselected : option string)
  : outcome (option (string * nat)) :=
  if decide (length (file_src self) = 1%nat) then
    f ← list_getitem (file_src self) 0;
    Value (Some (f, 0%nat))
  else
    match filedropselected with
    | None | Some "" => Value None
    | Some clicked =>
        i ← list_index clicked (file_src self);
        Value (Some (clicked, i))
    end.

(** The functions of [os.path] the checks call, on the file system as it
    is when they run: [os.path.splitext(f)[1]] and
    [os.path.isfile(os.path.abspath(f))]. *)
Class OsPath : Type := {
  splitext_ext : string -> string;
  isfile : string -> bool
}.

(** The extensions both checks accept. *)
Definition supported : list string :=
  [".jpeg"; ".jpg"; ".png"; ".bmp"; ".JPEG"; ".JPG"; ".PNG"; ".BMP"].

(** ['video' not in typemedia or 'sequence' not in typemedia] *)
Definition invalid_type (typemedia : string) : bool :=
  negb (py_contains "video" typemedia)
  || negb (py_contains "sequence" typemedia).

Definition msg_invalid_file (f : string) : string :=
  "Invalid file: '" +:+ f +:+ "'".
Definition msg_unsupported (ext : string) : string :=
  "Unsupported format '" +:+ ext +:+ "'".
Definition msg_missing (f : string) : string :=
  "File does not exist:" +:+ newline +:+ newline +:+ dquote +:+ f
  +:+ dquote +:+ newline.

Section WithOsPath.
Context {O : OsPath}.

(** [check_to_loop(self, typemedia, clicked)] *)
Definition check_to_loop (typemedia clicked : string) : checked :=
  if invalid_type typemedia then Rejected (msg_invalid_file clicked)
  else
    let ext := splitext_ext clicked in
    if bool_decide (ext ∈ supported) then
      if isfile clicked then Passed else Rejected (msg_missing clicked)
    else Rejected (msg_unsupported ext).

(** [check_to_slide(self, fsource)], with the texts of the fourth column
    of the file list control, one for each of its items. *)
Definition check_to_slide (column3 : list string) (fsource : list string)
  : outcome checked :=
  match list_find (fun t => invalid_type t = true) column3 with
  | Some (x, _) =>
      f ← list_getitem fsource x;
      Value (Rejected (msg_invalid_file f))
  | None =>
      let unsupp :=
        filter (fun f => splitext_ext f ∉ supported) fsource in
      match unsupp with
      | u :: _ => Value (Rejected (msg_unsupported (splitext_ext u)))
      | [] =>
          match list_find (fun fn => isfile fn = false) fsource with
          | Some (_, fn) => Value (Rejected (msg_missing fn))
          | None => Value Passed
          end
      end
  end.

End WithOsPath.

End SequenceToVideoPanel.

(** ** sequence_to_video.py: the handlers of the controls *)

Module SequenceToVideoEvents.
Import SequenceToVideo SequenceToVideoSpec.

Definition set_ckbx_audio (b : bool) (p : panel) : panel :=
  {| time_seq := time_seq p; file_src := file_src p;
     ckbx_static_img := ckbx_static_img p; ckbx_audio := b;
     ckbx_shortest := ckbx_shortest p;
     txt_addparams_enabled := txt_addparams_enabled p;
     txt_addparams := txt_addparams p; opt := opt p |}.

Definition set_audio_track (merging map : string) (o : options) : options :=
  {| Scale := Scale o; Setdar := Setdar o; Setsar := Setsar o;
     RESIZE := RESIZE o; ADuration := ADuration o;
     AudioMerging := merging; Map := map; Shortest := Shortest o;
     Interval := Interval o; Clock := Clock o; Preinput := Preinput o;
     Fps := Fps o |}.

Definition set_ADuration (ms : Z) (o : options) : options :=
  {| Scale := Scale o; Setdar := Setdar o; Setsar := Setsar o;
     RESIZE := RESIZE o; ADuration := ms;
     AudioMerging := AudioMerging o; Map := Map o; Shortest := Shortest o;
     Interval := Interval o; Clock := Clock o; Preinput := Preinput o;
     Fps := Fps o |}.

Definition set_Fps (v : string * string) (o : options) : options :=
  {| Scale := Scale o; Setdar := Setdar o; Setsar := Setsar o;
     RESIZE := RESIZE o; ADuration := ADuration o;
     AudioMerging := AudioMerging o; Map := Map o; Shortest := Shortest o;
     Interval := Interval o; Clock := Clock o; Preinput := Preinput o;
     Fps := v |}.

Definition set_filters (scale setdar setsar : string) (o : options) : options :=
  {| Scale := scale; Setdar := setdar; Setsar := setsar;
     RESIZE := RESIZE o; ADuration := ADuration o;
     AudioMerging := AudioMerging o; Map := Map o; Shortest := Shortest o;
     Interval := Interval o; Clock := Clock o; Preinput := Preinput o;
     Fps := Fps o |}.

Definition set_RESIZE (v : string) (o : options) : options :=
  {| Scale := Scale o; Setdar := Setdar o; Setsar := Setsar o;
     RESIZE := v; ADuration := ADuration o;
     AudioMerging := AudioMerging o; Map := Map o; Shortest := Shortest o;
     Interval := Interval o; Clock := Clock o; Preinput := Preinput o;
     Fps := Fps o |}.

(** [on_fps], with the value of the combo box. *)
Definition on_fps (val : string) (self : panel) : panel :=
  if decide (val = "None")
  then set_opt (set_Fps ("", "None") (opt self)) self
  else set_opt (set_Fps ("fps=" +:+ val +:+ ",", val) (opt self)) self.

(** [on_addaudio_track] once a file is chosen: [ms] is the float
    [float(probe[0]['format']['duration']) * 1000] when the probe of the
    file gives a duration, and nothing when that line raises, which
    leaves the two keys set before it. *)
Definition on_addaudio_track (pathname : string) (ms : option Q)
    (self : panel) : panel :=
  let o := set_audio_track ("-i " +:+ dquote +:+ pathname +:+ dquote)
             "-map 0:v:0 -map 1:a:0" (opt self) in
  match ms with
  | Some ms => set_opt (set_ADuration (py_round ms) o) self
  | None => set_opt o self
  end.

(** The panel together with the enabled state of the two controls that
    [on_enable_audio] switches and that the handlers hang on. *)
Record controls : Type := Controls {
  widgets : panel;
  btn_openaudio_enabled : bool;
  ckbx_shortest_enabled : bool
}.

Definition with_widgets (p : panel) (c : controls) : controls :=
  {| widgets := p; btn_openaudio_enabled := btn_openaudio_enabled c;
     ckbx_shortest_enabled := ckbx_shortest_enabled c |}.

(** [on_enable_audio] with the [Enable] and [Disable] calls it makes. *)
Definition on_enable_audio_controls (c : controls) : controls :=
  {| widgets := on_enable_audio (widgets c);
     btn_openaudio_enabled := ckbx_audio (widgets c);
     ckbx_shortest_enabled := ckbx_audio (widgets c) |}.

(** The panel as [__init__] leaves it, on a main frame with the given
    time sequence and files. *)
Definition init_controls (ts : string) (files : list string) : controls :=
  {| widgets :=
       {| time_seq := ts; file_src := files;
          ckbx_static_img := false; ckbx_audio := false;
          ckbx_shortest := false; txt_addparams_enabled := false;
          txt_addparams := "-c:v libx264 -crf 23 -tune:v stillimage";
          opt := init_opt |};
     btn_openaudio_enabled := false;
     ckbx_shortest_enabled := false |}.

(** What the audio handlers own of the panel. *)
Definition same_audio (p p' : panel) : Prop :=
  ckbx_audio p' = ckbx_audio p ∧ ckbx_shortest p' = ckbx_shortest p ∧
  Shortest (opt p') = Shortest (opt p) ∧
  ADuration (opt p') = ADuration (opt p) ∧
  AudioMerging (opt p') = AudioMerging (opt p) ∧
  Map (opt p') = Map (opt p).

(** The states of the panel: a click on a check box toggles it and runs
    its handler, a disabled control gets no click, and whatever else
    happens leaves the audio part alone. *)
Inductive reachable : controls -> Prop :=
| reach_init ts files : reachable (init_controls ts files)
| reach_click_audio c :
    reachable c ->
    reachable (on_enable_audio_controls
                 (with_widgets
                    (set_ckbx_audio (negb (ckbx_audio (widgets c))) (widgets c)) c))
| reach_click_shortest c :
    reachable c -> ckbx_shortest_enabled c = true ->
    reachable (with_widgets
                 (on_shortest
                    (set_ckbx_shortest (negb (ckbx_shortest (widgets c)))
                       (widgets c))) c)
| reach_open_audio c pathname ms :
    reachable c -> btn_openaudio_enabled c = true ->
    reachable (with_widgets (on_addaudio_track pathname ms (widgets c)) c)
| reach_other c p :
    reachable c -> same_audio (widgets c) p ->
    reachable (with_widgets p c).

(** What the handlers keep true of the audio part. *)
Definition audio_consistent (c : controls) : Prop :=
  let p := widgets c in
  btn_openaudio_enabled c = ckbx_audio p ∧
  ckbx_shortest_enabled c = ckbx_audio p ∧
  Shortest (opt p)
  = (if ckbx_audio p && negb (ckbx_shortest p)
     then shortest_enabled else shortest_disabled) ∧
  (ckbx_audio p = false →
   ckbx_shortest p = false ∧ ADuration (opt p) = 0 ∧
   AudioMerging (opt p) = "" ∧ Map (opt p) = "-map 0:v?").

(** [d[k]] on the dictionary the resizing dialog returns, its items in
    their order. *)
Definition dict_getitem (k : string) (d : list (string * string))
  : outcome string :=
  match list_find (fun kv => kv.1 = k) d with
  | Some (_, kv) => Value kv.2
  | None => Raised Exception_KeyError
  end.

(** [[x for x in data.values() if x]] *)
Definition truthy_values (data : list (string * string)) : list string :=
  filter (fun x => py_truthy x = true) data.*2.

(** [on_resizing] once the dialog is confirmed with [data]: the keys of
    [self.opt] as the assignments leave them, and the [KeyError] that
    stopped them, if any. *)
Definition on_resizing_ok (data : list (string * string)) (o : options)
  : options * option exception :=
  match truthy_values data with
  | [] => (set_RESIZE "" (set_filters "" "" "" o), None)
  | _ :: _ =>
      match dict_getitem "scale" data with
      | Raised e => (o, Some e)
      | Value scale =>
          let o1 := set_filters scale (Setdar o) (Setsar o) o in
          match dict_getitem "setdar" data with
          | Raised e => (o1, Some e)
          | Value setdar =>
              let o2 := set_filters scale setdar (Setsar o) o in
              match dict_getitem "setsar" data with
              | Raised e => (o2, Some e)
              | Value setsar =>
                  let o3 := set_filters scale setdar setsar o in
                  let flt :=
                    drop_last
                      (String.concat ""
                         ((fun x => x +:+ ",") <$> truthy_values data)) in
                  if py_truthy flt
                  then (set_RESIZE ("-vf " +:+ flt) o3, None)
                  else (o3, None)
              end
          end
      end
  end.

End SequenceToVideoEvents.

(** ** concatenate.py: the list of files [on_start] writes *)

Module ConcatenateList.

(** [f.replace(r"'", r"'\''")] *)
Definition escape (f : string) : string := replace_char "'" "'\''" f.

(** The line of a file in the list. *)
Definition flist_entry (f : string) : string :=
  "file '" +:+ escape f +:+ "'".

(** ['\n'.join(textstr)], the text written to the list. *)
Definition flist_text (file_src : list string) : string :=
  String.concat newline (flist_entry <$> file_src).

(** The inverse reading of [escape], used to tell escaped names apart. *)
Fixpoint unescape (s : string) : string :=
  match s with
  | String "'" (String "\" (String "'" (String "'" rest))) =>
      String "'" (unescape rest)
  | String a rest => String a (unescape rest)
  | "" => ""
  end.

(** No character of the string is [c]. *)
Fixpoint char_free (c : ascii) (s : string) : bool :=
  match s with
  | "" => true
  | String a rest => negb (bool_decide (a = c)) && char_free c rest
  end.

End ConcatenateList.

(** ** sequence_to_video.py: [on_start] *)

Module SequenceToVideoStart.
Import Concatenate SequenceToVideo SequenceToVideoPanel.

(** What [on_start] reads around the panel: the selected file of the
    main frame, the file list control (its item count and the text of the
    fourth column of each item), the probed files, the destination
    settings, and whether the summary dialog is confirmed. *)
Record surroundings : Type := Surroundings {
  filedropselected : option string;
  item_count : nat;
  item_text : nat -> string;
  data_files : list probe;
  same_destin : bool;
  outpath_ffmpeg : string;
  dialog_ok : bool
}.

(** The functions of [os.path] and of [videomass.vdms_utils.utils] that
    name the output: [os.path.dirname], [os.path.basename],
    [os.path.join], and [make_newdir_with_id], which makes a new directory
    and returns its path. *)
Class OsDirs : Type := {
  dirname : string -> string;
  basename : string -> string;
  path_join : string -> string -> string;
  make_newdir_with_id : string -> string -> string
}.

(** The arguments [on_start] hands to [switch_to_processing]. *)
Record job : Type := Job {
  job_files : list string;
  job_outputdir : string;
  job_destdir : string;
  job_commands : string * string;
  job_preinput : string;
  job_duration : Z;
  job_countmax : nat
}.

(** What a call of [on_start] that returns leaves: the panel, the
    directory [make_newdir_with_id] made, if it was called, and the job
    started, if any. *)
Record started : Type := Started {
  panel_after : panel;
  made_dir : option string;
  launched : option job
}.

(** An exception of [get_args_line] among the exceptions of [on_start]. *)
Definition lift_pyres {A : Type} (r : pyres A) : outcome A :=
  match r with
  | Ret a => Value a
  | Raise IndexError => Raised Exception_IndexError
  end.

(** [s.rsplit('.')[0]]: the part before the first dot. *)
Definition before_first_dot (s : string) : string :=
  default "" (head (ClockModel.split_on "." s)).

Section WithSurroundings.
Context {U : Utils} {O : OsPath} {D : OsDirs}.

(** The checks of [on_start] on the files, in static mode on the selected
    file [fget], and the files and the count it goes on with. *)
Definition on_start_checks (self : panel) (env : surroundings)
    (fget : string * nat) : outcome (checked * list string * nat) :=
  if ckbx_static_img self then
    let prop := item_text env (snd fget) in
    Value (check_to_loop prop (fst fget), [fst fget], 1%nat)
  else
    let files := file_src self in
    let countmax := length files in
    slide ← check_to_slide (item_text env <$> seq 0 (item_count env)) files;
    match slide with
    | Rejected msg => Value (Rejected msg, files, countmax)
    | Passed =>
        if negb (py_truthy (RESIZE (opt self)))
           && negb (bool_decide (countmax = 1%nat))
        then
          sizes ← check_images_size (data_files env);
          Value (sizes, files, countmax)
        else Value (Passed, files, countmax)
    end.

(** [on_start(self)] *)
Definition on_start (self : panel) (env : surroundings) : outcome started :=
  fget ← file_selection self (filedropselected env);
  match fget with
  | None => Value {| panel_after := self; made_dir := None; launched := None |}
  | Some fget =>
      let destdir :=
        if same_destin env then dirname (fst fget) else outpath_ffmpeg env in
      let base := basename (before_first_dot (fst fget)) in
      let outputdir := make_newdir_with_id destdir "Still-Images_1" in
      let destdir := path_join outputdir (base +:+ ".mkv") in
      checks ← on_start_checks self env fget;
      let '(verdict, files, countmax) := checks in
      match verdict with
      | Rejected _ =>
          Value {| panel_after := self; made_dir := Some outputdir;
                   launched := None |}
      | Passed =>
          r ← lift_pyres (get_args_line self);
          let '(self', args) := r in
          Value {| panel_after := self'; made_dir := Some outputdir;
                   launched :=
                     if dialog_ok env then
                       Some {| job_files := files;
                               job_outputdir := outputdir;
                               job_destdir := destdir;
                               job_commands := (RESIZE (opt self'), fst args);
                               job_preinput := Preinput (opt self');
                               job_duration := snd args;
                               job_countmax := countmax |}
                     else None |}
      end
  end.

End WithSurroundings.

End SequenceToVideoStart.

(** ** concatenate.py: [on_start] up to the list it writes *)

Module ConcatenateStart.
Import Concatenate ConcatenateList SequenceToVideoPanel.

(** What [on_start] has when it opens the list for writing: the text of
    the list, [self.args], [self.duration] and the extension of the
    output. *)
Record prepared : Type := Prepared {
  list_text : string;
  args : string;
  duration : Z;
  ext : string
}.

(** [self.args], with the path [ftext] of the list. *)
Definition concat_args (ftext : string) : string :=
  dquote +:+ ftext +:+ dquote +:+
  " -map 0:v? -map_chapters 0 -map 0:s? -map 0:a? -map_metadata 0 -c copy".

(** [on_start(self)] up to the writing of the list: the message of
    [compare_media_param] when it gives one, and else what is written and
    kept. The extension is
    [os.path.splitext(file_src[0])[1].split('.')[1]]. *)
Definition on_start {O : OsPath} (ftext : string) (data_files : list probe)
    (file_src : list string) (durations : list Z)
  : outcome (string + prepared) :=
  match compare_media_param data_files with
  | Some diff => Value (inl diff)
  | None =>
      first ← list_getitem file_src 0;
      ext ← list_getitem (ClockModel.split_on "." (splitext_ext first)) 1;
      Value (inr {| list_text := flist_text file_src;
                    args := concat_args ftext;
                    duration := foldr Z.add 0 durations;
                    ext := ext |})
  end.

End ConcatenateStart.

(** ** Sample surroundings for the checks *)

Module PanelSamples.
Import Concatenate ConcatenateSpec SequenceToVideo SequenceToVideoSpec.
Import SequenceToVideoPanel SequenceToVideoStart.

(** The text after the last [c] of [s], when [c] occurs in [s]. *)
Fixpoint after_last (c : ascii) (s : string) : option string :=
  match s with
  | "" => None
  | String a rest =>
      match after_last c rest with
      | Some t => Some t
      | None => if decide (a = c) then Some rest else None
      end
  end.

(** [s] cut at its last dot: what precedes the dot, and the text from
    the dot on. *)
Fixpoint at_last_dot (s : string) : option (string * string) :=
  match s with
  | "" => None
  | String a rest =>
      match at_last_dot rest with
      | Some (stem, ext) => Some (String a stem, ext)
      | None => if decide (a = "."%char) then Some ("", s) else None
      end
  end.

Fixpoint only_dots (s : string) : bool :=
  match s with
  | "" => true
  | String a rest => bool_decide (a = "."%char) && only_dots rest
  end.

(** [os.path.splitext(p)[1]] of [posixpath]: the text from the last dot
    of the last component of [p], and nothing when that component has no
    dot or only dots before its last one. *)
Definition posix_splitext_ext (p : string) : string :=
  match at_last_dot (default p (after_last "/" p)) with
  | Some (stem, ext) => if only_dots stem then "" else ext
  | None => ""
  end.

(** A file system with two image files and a text file. *)
#[export] Instance sample_os : OsPath :=
  {| splitext_ext := posix_splitext_ext;
     isfile := fun f => bool_decide (f ∈ ["a.png"; "b.jpg"; "notes.txt"]) |}.

(** Paths written with slashes. *)
#[export] Instance sample_dirs : OsDirs :=
  {| dirname := fun _ => "/pictures";
     basename := fun f => f;
     path_join := fun a b => a +:+ "/" +:+ b;
     make_newdir_with_id := fun d name => d +:+ "/" +:+ name |}.

(** Two images of 640x480 in the queue, the second one selected, every
    row of the file list reading as an image sequence, and the summary
    dialog confirmed. *)
Definition sample_image (name : string) (w h : Z) : probe :=
  sample_file name
    [{[ "index" := PyInt 0; "codec_type" := PyStr "video";
        "codec_name" := PyStr "png"; "width" := PyInt w;
        "height" := PyInt h ]}].

Definition sample_env : surroundings :=
  {| filedropselected := Some "b.jpg";
     item_count := 2;
     item_text := fun _ => "video sequence";
     data_files := [sample_image "a.png" 640 480; sample_image "b.jpg" 640 480];
     same_destin := true;
     outpath_ffmpeg := "/out";
     dialog_ok := true |}.

(** The panel for these two images, each shown two seconds, as a
    slideshow or as a static video. *)
Definition sample_self (static : bool) : panel :=
  {| time_seq := "-ss 00:00:00.000 -t 00:00:02.000";
     file_src := ["a.png"; "b.jpg"];
     ckbx_static_img := static; ckbx_audio := false;
     ckbx_shortest := false; txt_addparams_enabled := false;
     txt_addparams := "-c:v libx264 -crf 23 -tune:v stillimage";
     opt := init_opt |}.

End PanelSamples.

(** * Properties of [compare_media_param] *)

Section ConcatenateFacts.
Import Concatenate ConcatenateSpec.
Local Open Scope list_scope.

(** *** The dictionary [com] *)

Lemma setitem_nonempty k v com : setitem k v com ≠ [].
Proof. destruct com as [|[k' v'] com]; simpl; [|case_decide]; discriminate. Qed.

Lemma setitem_fresh k v com :
  k ∉ com.*1 → setitem k v com = com ++ [(k, v)].
Proof.
  induction com as [|[k' v'] com IH]; simpl; intros Hk; [reflexivity|].
  rewrite not_elem_of_cons in Hk. destruct Hk as [Hne Hk].
  case_decide; [contradiction|]. by rewrite IH.
Qed.

Lemma setitem_values_same (s : signature) k com :
  Forall (eq s) (values com) → Forall (eq s) (values (setitem k s com)).
Proof.
  unfold values. induction com as [|[k' v'] com IH]; intros Hall.
  - by repeat constructor.
  - cbn [setitem]. rewrite fmap_cons in Hall.
    apply Forall_cons in Hall as [Hv Hrest].
    case_decide; rewrite fmap_cons; apply Forall_cons; split; auto.
Qed.

Lemma foldl_file_step_nonempty data com :
  com ≠ [] ∨ data ≠ [] → foldl file_step com data ≠ [].
Proof.
  revert com. induction data as [|f data IH]; simpl; intros com Hne.
  - by destruct Hne.
  - apply IH. left. apply setitem_nonempty.
Qed.

Lemma build_com_nonempty data : data ≠ [] → build_com data ≠ [].
Proof. intros Hne. apply foldl_file_step_nonempty. by right. Qed.

Lemma foldl_file_step_same (s : signature) data com :
  Forall (eq s) (values com) →
  Forall (fun f => s = file_signature f) data →
  Forall (eq s) (values (foldl file_step com data)).
Proof.
  revert com. induction data as [|f data IH]; simpl; intros com Hcom Hdata.
  - exact Hcom.
  - apply Forall_cons in Hdata as [Hf Hrest].
    apply IH; [|exact Hrest]. unfold file_step.
    rewrite <- Hf. by apply setitem_values_same.
Qed.

(** With distinct file names, [com] lists the files in their order. *)
Lemma foldl_file_step_distinct data com :
  NoDup (com.*1 ++ (file_name <$> data)) →
  foldl file_step com data
  = com ++ ((fun f => (file_name f, file_signature f)) <$> data).
Proof.
  revert com. induction data as [|f data IH]; simpl; intros com Hnd.
  - by rewrite app_nil_r.
  - unfold file_step at 2. rewrite setitem_fresh.
    + rewrite IH.
      * by rewrite <- app_assoc.
      * rewrite fmap_app. simpl. by rewrite <- app_assoc.
    + apply NoDup_app in Hnd as (_ & Hdisj & _).
      intros Hin. apply (Hdisj _ Hin). left.
Qed.

Lemma build_com_distinct data :
  NoDup (file_name <$> data) →
  values (build_com data) = file_signature <$> data.
Proof.
  intros Hnd. unfold build_com, values.
  rewrite foldl_file_step_distinct by exact Hnd.
  simpl. rewrite <- list_fmap_compose. reflexivity.
Qed.

(** *** The final comparison *)

Lemma forallb_eq_first_true (s : signature) (vs : list signature) :
  forallb (fun val => bool_decide (val = s)) vs = true ↔ Forall (eq s) vs.
Proof.
  rewrite forallb_forall, Forall_forall. split; intros H v Hv.
  - apply list_elem_of_In in Hv. apply H in Hv.
    symmetry. by apply bool_decide_eq_true in Hv.
  - apply list_elem_of_In in Hv. apply H in Hv.
    by apply bool_decide_eq_true.
Qed.

(** The outcome on at least two files, as a property of [com.values()]. *)
Lemma compare_media_param_values data :
  (2 ≤ length data)%nat →
  ∃ totest rest,
    values (build_com data) = totest :: rest ∧
    compare_media_param data
    = if forallb (fun val => bool_decide (val = totest)) (totest :: rest)
      then None else Some msg_mismatch.
Proof.
  intros Hlen. unfold compare_media_param.
  case_decide as Hone; [lia|].
  destruct (values (build_com data)) as [|totest rest] eqn:Hvals.
  - exfalso. apply (build_com_nonempty data).
    + intros ->. simpl in Hlen. lia.
    + unfold values in Hvals. by apply fmap_nil_inv in Hvals.
  - eauto.
Qed.

Lemma compare_media_param_same data :
  (2 ≤ length data)%nat →
  (∀ f g, f ∈ data → g ∈ data → file_signature f = file_signature g) →
  compare_media_param data = None.
Proof.
  intros Hlen Hsame.
  destruct (compare_media_param_values data Hlen) as (totest & rest & Hvals & ->).
  destruct data as [|f0 data]; [simpl in Hlen; lia|].
  assert (Forall (eq (file_signature f0)) (values (build_com (f0 :: data)))) as Hall.
  { apply foldl_file_step_same; [constructor|].
    apply Forall_forall. intros g Hg. apply Hsame; [left|exact Hg]. }
  rewrite Hvals in Hall.
  pose proof (Forall_cons_1 _ _ _ Hall) as [<- _].
  replace (forallb _ _) with true; [reflexivity|].
  symmetry. apply forallb_eq_first_true. exact Hall.
Qed.

(** On at least two files the check passes exactly when all the values
    of [com] are equal. *)
Lemma compare_media_param_None_iff data :
  (2 ≤ length data)%nat →
  compare_media_param data = None
  ↔ ∀ v w, v ∈ values (build_com data) → w ∈ values (build_com data) → v = w.
Proof.
  intros Hlen.
  destruct (compare_media_param_values data Hlen) as (totest & rest & Hvals & ->).
  rewrite Hvals.
  destruct (forallb _ _) eqn:Hall.
  - apply forallb_eq_first_true in Hall. rewrite Forall_forall in Hall.
    split; [|reflexivity]. intros _ v w Hv Hw.
    by rewrite <- (Hall v Hv), <- (Hall w Hw).
  - split; [discriminate|]. intros Hsame. exfalso.
    apply not_true_iff_false in Hall. apply Hall.
    apply forallb_eq_first_true, Forall_forall.
    intros v Hv. apply Hsame; [left|exact Hv].
Qed.

Lemma compare_media_param_outcomes data :
  (2 ≤ length data)%nat →
  compare_media_param data = None ∨
  compare_media_param data = Some msg_mismatch.
Proof.
  intros Hlen.
  destruct (compare_media_param_values data Hlen) as (totest & rest & _ & ->).
  destruct (forallb _ _); auto.
Qed.

(** X3. The verdict does not depend on the order of files of distinct
    names. *)
Theorem compare_media_param_perm_distinct data data' :
  NoDup (file_name <$> data) →
  data ≡ₚ data' →
  compare_media_param data' = compare_media_param data.
Proof.
  intros Hnd Hperm.
  assert (NoDup (file_name <$> data')) as Hnd' by (by rewrite <- Hperm).
  assert (length data' = length data) as Hlen by (by rewrite Hperm).
  destruct (decide (2 ≤ length data)%nat) as [Hge|Hlt].
  - assert (compare_media_param data = None ↔ compare_media_param data' = None)
      as Hiff.
    { rewrite !compare_media_param_None_iff by lia.
      rewrite !build_com_distinct by assumption.
      by setoid_rewrite Hperm. }
    assert (2 ≤ length data')%nat as Hge' by lia.
    destruct (compare_media_param_outcomes data Hge) as [H|H],
             (compare_media_param_outcomes data' Hge') as [H'|H'];
      rewrite H, H'; try reflexivity.
    + apply Hiff in H. congruence.
    + apply Hiff in H'. congruence.
  - destruct data as [|f [|g data]]; simpl in Hlt; try lia.
    + apply Permutation_nil_l in Hperm. by subst.
    + apply Permutation_singleton_l in Hperm. by subst.
Qed.

(** With a repeated file name the later file replaces the earlier one in
    [com], and the order of the files decides the verdict. *)
Example compare_media_param_repeated_name :
  compare_media_param [clip_b_narrow; clip_b; clip_a] = None ∧
  compare_media_param [clip_b; clip_b_narrow; clip_a] = Some msg_mismatch.
Proof. split; vm_compute; reflexivity. Qed.

(** *** Streams that are neither video nor audio *)

Lemma stream_step_skip sig items :
  is_av items = false → stream_step sig items = sig.
Proof.
  unfold is_av, stream_step. intros Hav.
  apply orb_false_iff in Hav as [Hv Ha].
  apply bool_decide_eq_false in Hv, Ha.
  by rewrite !decide_False by assumption.
Qed.

Lemma foldl_stream_step_filter sig (ss : list pydict) :
  foldl stream_step sig (filter (fun items => is_av items) ss)
  = foldl stream_step sig ss.
Proof.
  revert sig. induction ss as [|items ss IH]; intros sig; [reflexivity|].
  destruct (is_av items) eqn:Hav.
  - rewrite filter_cons_True by (by apply Is_true_true). simpl. apply IH.
  - rewrite filter_cons_False by (by apply Is_true_false). simpl.
    by rewrite stream_step_skip.
Qed.

Lemma file_signature_strip f : file_signature (strip f) = file_signature f.
Proof. apply foldl_stream_step_filter. Qed.

Lemma file_signature_no_av f :
  (∀ items, items ∈ streams f → is_av items = false) →
  file_signature f = ∅.
Proof.
  unfold file_signature. generalize (∅ : signature) as sig.
  induction (streams f) as [|items ss IH]; intros sig Hno; [reflexivity|].
  simpl. rewrite stream_step_skip by (apply Hno; left).
  apply IH. intros items' Hin. apply Hno. by right.
Qed.

Lemma foldl_file_step_strip data com :
  foldl file_step com (strip <$> data) = foldl file_step com data.
Proof.
  revert com. induction data as [|f data IH]; intros com; [reflexivity|].
  rewrite fmap_cons. simpl. rewrite IH. unfold file_step.
  by rewrite file_signature_strip.
Qed.

Lemma compare_media_param_strip data :
  compare_media_param (strip <$> data) = compare_media_param data.
Proof.
  unfold compare_media_param, build_com.
  by rewrite length_fmap, foldl_file_step_strip.
Qed.

(** *** The entry of a stream in the signature of its file *)

Lemma stream_step_entry sig items :
  stream_step sig items
  = match stream_entry items with
    | Some e => <[get "index" items := e]> sig
    | None => sig
    end.
Proof.
  unfold stream_step, stream_entry.
  repeat case_decide; try reflexivity; congruence.
Qed.

Lemma foldl_stream_step_lookup_notin (k : pyval) (ss : list pydict) sig :
  k ∉ (get "index" <$> ss) →
  foldl stream_step sig ss !! k = sig !! k.
Proof.
  revert sig. induction ss as [|items ss IH]; intros sig Hk; [reflexivity|].
  rewrite fmap_cons in Hk. apply not_elem_of_cons in Hk as [Hne Hk].
  simpl. rewrite IH by exact Hk. rewrite stream_step_entry.
  destruct (stream_entry items); [|reflexivity].
  by rewrite lookup_insert_ne.
Qed.

Lemma file_signature_lookup f pre items post e :
  streams f = pre ++ items :: post →
  get "index" items ∉ (get "index" <$> post) →
  stream_entry items = Some e →
  file_signature f !! get "index" items = Some e.
Proof.
  intros Hs Hpost He. unfold file_signature.
  rewrite Hs, foldl_app. simpl.
  rewrite foldl_stream_step_lookup_notin by exact Hpost.
  rewrite stream_step_entry, He. apply lookup_insert_eq.
Qed.

(** *** The size string of integer widths and heights *)

Lemma x_free_pretty_N_go (n : N) s :
  x_free s = true → x_free (pretty_N_go n s) = true.
Proof.
  revert s. induction (N.lt_wf_0 n) as [n _ IH]; intros s Hs.
  destruct (decide (n = 0%N)) as [->|Hn]; [by rewrite pretty_N_go_0|].
  rewrite pretty_N_go_step by lia. apply IH.
  - apply N.div_lt; lia.
  - simpl. rewrite Hs. unfold pretty_N_char.
    by repeat case_match.
Qed.

Lemma x_free_pretty_N (n : N) : x_free (pretty n) = true.
Proof.
  unfold pretty, pretty_N. case_decide; [reflexivity|].
  by apply x_free_pretty_N_go.
Qed.

Lemma x_free_pretty_Z (z : Z) : x_free (pretty z) = true.
Proof.
  destruct z as [|p|p]; [reflexivity|apply x_free_pretty_N|].
  change (pretty (Z.neg p)) with ("-" +:+ pretty (N.pos p)).
  change ("-" +:+ pretty (N.pos p)) with (String "-" (pretty (N.pos p))).
  simpl. apply x_free_pretty_N.
Qed.

Lemma x_free_cons a s :
  x_free (String a s) = true → a ≠ "x"%char ∧ x_free s = true.
Proof.
  simpl. intros H. apply andb_true_iff in H as [Ha Hs]. split; [|exact Hs].
  by apply negb_true_iff, bool_decide_eq_false in Ha.
Qed.

Lemma x_free_split s1 s2 t1 t2 :
  x_free s1 = true → x_free s2 = true →
  s1 +:+ "x" +:+ t1 = s2 +:+ "x" +:+ t2 → s1 = s2 ∧ t1 = t2.
Proof.
  revert s2. induction s1 as [|a s1 IH]; intros [|b s2] H1 H2 Heq.
  - by injection Heq.
  - injection Heq as Hb _. apply x_free_cons in H2 as [H2 _]. congruence.
  - injection Heq as Ha _. apply x_free_cons in H1 as [H1 _]. congruence.
  - injection Heq as -> Heq.
    apply x_free_cons in H1 as [_ H1]. apply x_free_cons in H2 as [_ H2].
    destruct (IH s2 H1 H2 Heq) as [-> ->]. done.
Qed.

Lemma size_str_int_inj (items items' : pydict) (w h w' h' : Z) :
  get "width" items = PyInt w → get "height" items = PyInt h →
  get "width" items' = PyInt w' → get "height" items' = PyInt h' →
  size_str items = size_str items' → w = w' ∧ h = h'.
Proof.
  unfold size_str. intros -> -> -> ->. simpl. intros Heq.
  apply x_free_split in Heq as [Hw Hh]; try apply x_free_pretty_Z.
  split; by apply (inj pretty).
Qed.

Lemma get_insert_eq k v (d : pydict) : get k (<[k := v]> d) = v.
Proof. unfold get. by rewrite lookup_insert_eq. Qed.

Lemma get_insert_ne k k' v (d : pydict) :
  k ≠ k' → get k' (<[k := v]> d) = get k' d.
Proof. intros Hne. unfold get. by rewrite lookup_insert_ne. Qed.

(** Two files of distinct names whose streams differ at one place, by a
    stream that leaves another entry at the same index. *)
Lemma compare_media_param_two_mismatch f1 f2 pre items items' post e e' :
  streams f1 = pre ++ items :: post →
  streams f2 = pre ++ items' :: post →
  file_name f1 ≠ file_name f2 →
  get "index" items' = get "index" items →
  get "index" items ∉ (get "index" <$> post) →
  stream_entry items = Some e →
  stream_entry items' = Some e' →
  e ≠ e' →
  compare_media_param [f1; f2] = Some msg_mismatch.
Proof.
  intros Hs1 Hs2 Hname Hidx Hpost He He' Hne.
  assert (file_signature f2 ≠ file_signature f1) as Hsig.
  { intros Heq.
    pose proof (file_signature_lookup f1 pre items post e Hs1 Hpost He) as H1.
    rewrite <- Hidx in Hpost.
    pose proof (file_signature_lookup f2 pre items' post e' Hs2 Hpost He') as H2.
    rewrite Hidx, Heq, H1 in H2. congruence. }
  unfold compare_media_param, build_com. simpl.
  unfold file_step at 2. simpl. unfold file_step. simpl.
  rewrite decide_False by congruence. simpl.
  rewrite bool_decide_eq_true_2 by reflexivity.
  rewrite bool_decide_eq_false_2 by exact Hsig. reflexivity.
Qed.

(** C1. Two probed files of distinct names whose streams are the same
    except for one video stream that differs in its integer width or
    height, or for one audio stream that differs in its sample rate, the
    stream indices of a file being distinct: [compare_media_param]
    returns the message of incompatible streams. *)
Theorem compare_media_param_detects_mismatch
    (f1 f2 : probe) (pre post : list pydict) (items items' : pydict) :
  streams f1 = pre ++ items :: post →
  streams f2 = pre ++ items' :: post →
  file_name f1 ≠ file_name f2 →
  NoDup (get "index" <$> streams f1) →
  differs_in_geometry items items' ∨ differs_in_sample_rate items items' →
  compare_media_param [f1; f2] = Some msg_mismatch.
Proof.
  intros Hs1 Hs2 Hname Hnd Hdiff.
  assert (get "index" items ∉ (get "index" <$> post)) as Hpost.
  { rewrite Hs1, fmap_app, fmap_cons in Hnd.
    apply NoDup_app in Hnd as (_ & _ & Hnd).
    by apply NoDup_cons in Hnd as [Hnotin _]. }
  destruct Hdiff as [[Hvideo (w & h & w' & h' & Hw & Hh & -> & Hne)]
                    |[Haudio (rate' & -> & Hne)]].
  - eapply compare_media_param_two_mismatch; try eassumption.
    + by rewrite !get_insert_ne.
    + unfold stream_entry. rewrite Hvideo.
      rewrite decide_False by discriminate. by rewrite decide_True.
    + unfold stream_entry. rewrite !get_insert_ne, Hvideo by discriminate.
      rewrite decide_False by discriminate. by rewrite decide_True.
    + intros [= Hsize].
      assert (w = w' ∧ h = h') as [Hww Hhh]; [|by destruct Hne].
      eapply (size_str_int_inj items _ w h w' h');
        [exact Hw|exact Hh| | |exact Hsize].
      * apply get_insert_eq.
      * rewrite get_insert_ne by discriminate. apply get_insert_eq.
  - eapply compare_media_param_two_mismatch; try eassumption.
    + by rewrite get_insert_ne.
    + unfold stream_entry. by rewrite Haudio, decide_True.
    + unfold stream_entry. rewrite get_insert_ne, Haudio by discriminate.
      by rewrite decide_True.
    + rewrite get_insert_eq, get_insert_ne by discriminate. congruence.
Qed.

Lemma compare_media_param_detects_mismatch_witness :
  compare_media_param [clip_a; clip_b_narrow] = Some msg_mismatch ∧
  compare_media_param [clip_a; clip_b_rate] = Some msg_mismatch.
Proof.
  split.
  - apply (compare_media_param_detects_mismatch clip_a clip_b_narrow
             [] [audio_stream "48000"]
             (video_stream 1920 1080) (video_stream 1280 1080)).
    + reflexivity.
    + reflexivity.
    + vm_compute. discriminate.
    + apply (bool_decide_unpack _). vm_compute. exact I.
    + left. split; [reflexivity|].
      exists 1920, 1080, 1280, 1080.
      repeat split; try reflexivity. left. discriminate.
  - apply (compare_media_param_detects_mismatch clip_a clip_b_rate
             [video_stream 1920 1080] []
             (audio_stream "48000") (audio_stream "44100")).
    + reflexivity.
    + reflexivity.
    + vm_compute. discriminate.
    + apply (bool_decide_unpack _). vm_compute. exact I.
    + right. split; [reflexivity|].
      exists (PyStr "44100"). split; [reflexivity|].
      vm_compute. discriminate.
Defined.

(** C3, as the code has it. On fewer than two files
    [compare_media_param] returns an error: the message that at least two
    files are required for one file, and the message of invalid data for
    the empty list, which skips the test [len(data) == 1] and leaves [com]
    empty. *)
Theorem compare_media_param_fewer_than_two (data : list probe) :
  (length data < 2)%nat →
  compare_media_param data
  = match data with
    | [] => Some msg_invalid_data
    | _ :: _ => Some msg_two_files
    end.
Proof.
  intros Hlen. destruct data as [|f [|g data]]; simpl in Hlen; try lia.
  - reflexivity.
  - reflexivity.
Qed.

Lemma compare_media_param_fewer_than_two_witness :
  compare_media_param [clip_a] = Some msg_two_files.
Proof.
  apply (compare_media_param_fewer_than_two [clip_a]). simpl. lia.
Defined.

(** C3 as stated fails on the empty list, which is shorter than two
    files and does not get the message that two files are required. *)
Lemma compare_media_param_empty_counterexample :
  (length ([] : list probe) < 2)%nat ∧
  compare_media_param [] = Some msg_invalid_data ∧
  compare_media_param [] ≠ Some msg_two_files.
Proof. split; [simpl; lia|]. split; [reflexivity|]. vm_compute. discriminate. Qed.

(** C5. On at least two files that all yield the same signature
    [compare_media_param] returns [None], and so it does on every
    permutation of them. *)
Theorem compare_media_param_same_signature (data data' : list probe) :
  (2 ≤ length data)%nat →
  (∀ f g, f ∈ data → g ∈ data → file_signature f = file_signature g) →
  data ≡ₚ data' →
  compare_media_param data = None ∧
  compare_media_param data' = compare_media_param data.
Proof.
  intros Hlen Hsame Hperm.
  assert (compare_media_param data = None) as Hdata
    by (by apply compare_media_param_same).
  split; [exact Hdata|]. rewrite Hdata.
  apply compare_media_param_same.
  - by rewrite <- Hperm.
  - intros f g Hf Hg. rewrite <- Hperm in Hf, Hg. by apply Hsame.
Qed.

Lemma compare_media_param_same_signature_witness :
  compare_media_param [clip_a; clip_b; clip_a_subs] = None ∧
  compare_media_param [clip_a_subs; clip_a; clip_b]
  = compare_media_param [clip_a; clip_b; clip_a_subs].
Proof.
  apply (compare_media_param_same_signature
           [clip_a; clip_b; clip_a_subs] [clip_a_subs; clip_a; clip_b]).
  - simpl. lia.
  - intros f g Hf Hg.
    assert (∀ x, x ∈ [clip_a; clip_b; clip_a_subs] →
                 file_signature x = file_signature clip_a) as Hall.
    { intros x Hx. repeat (apply elem_of_cons in Hx as [->|Hx]);
        [reflexivity..|by apply elem_of_nil in Hx]. }
    by rewrite (Hall f Hf), (Hall g Hg).
  - symmetry. apply (Permutation_cons_append [clip_a; clip_b] clip_a_subs).
Defined.

(** C7. On at least two files none of which has a video or an audio
    stream [compare_media_param] returns [None]; and the streams that are
    neither video nor audio have no part in the result: two inputs that
    agree once these streams are left out get the same result. *)
Theorem compare_media_param_other_streams (data : list probe) :
  ((2 ≤ length data)%nat →
   (∀ f items, f ∈ data → items ∈ streams f → is_av items = false) →
   compare_media_param data = None) ∧
  (∀ data', strip <$> data' = strip <$> data →
            compare_media_param data' = compare_media_param data).
Proof.
  split.
  - intros Hlen Hno. apply compare_media_param_same; [exact Hlen|].
    intros f g Hf Hg.
    rewrite (file_signature_no_av f) by (intros items Hin; by apply (Hno f)).
    rewrite (file_signature_no_av g) by (intros items Hin; by apply (Hno g)).
    reflexivity.
  - intros data' Heq.
    by rewrite <- (compare_media_param_strip data'), Heq,
               compare_media_param_strip.
Qed.

Lemma compare_media_param_other_streams_witness :
  compare_media_param [subs_a; subs_b] = None ∧
  compare_media_param [clip_a_subs; clip_b_narrow]
  = compare_media_param [clip_a; clip_b_narrow].
Proof.
  split.
  - apply (proj1 (compare_media_param_other_streams [subs_a; subs_b])).
    + simpl. lia.
    + intros f items Hf Hin.
      repeat (apply elem_of_cons in Hf as [->|Hf]);
        try (by apply elem_of_nil in Hf);
        apply list_elem_of_singleton in Hin as ->; reflexivity.
  - apply (proj2 (compare_media_param_other_streams [clip_a; clip_b_narrow])).
    reflexivity.
Defined.

End ConcatenateFacts.

(** * Properties of the slideshow timing *)

(** *** Rounding *)

Section Rounding.

Lemma py_round_cases (x : Q) :
  (py_round x = Qfloor x ∧ (x - inject_Z (Qfloor x) <= 1 # 2)%Q) ∨
  (py_round x = Qfloor x + 1 ∧ (1 # 2 <= x - inject_Z (Qfloor x))%Q).
Proof.
  unfold py_round.
  destruct (Qcompare _ _) eqn:Hc.
  - apply Qeq_alt in Hc.
    destruct (Z.even _); [left|right]; split; try reflexivity; lra.
  - apply Qlt_alt in Hc. left. split; [reflexivity|lra].
  - apply Qgt_alt in Hc. right. split; [reflexivity|lra].
Qed.

(** [round] answers an integer nearest to its argument. *)
Lemma py_round_nearest (x : Q) :
  (Qabs (x - inject_Z (py_round x)) <= 1 # 2)%Q.
Proof.
  pose proof (Qfloor_le x) as Hlo. pose proof (Qlt_floor x) as Hhi.
  rewrite inject_Z_plus in Hhi. change (inject_Z 1) with 1%Q in Hhi.
  apply Qabs_Qle_condition.
  destruct (py_round_cases x) as [[-> H]|[-> H]].
  - split; lra.
  - rewrite inject_Z_plus. change (inject_Z 1) with 1%Q. split; lra.
Qed.

Lemma py_round_nonneg (x : Q) : (0 <= x)%Q → 0 <= py_round x.
Proof.
  intros Hx.
  assert (0 <= Qfloor x) as Hf.
  { change 0 with (Qfloor 0). by apply Qfloor_resp_le. }
  destruct (py_round_cases x) as [[-> _]|[-> _]]; lia.
Qed.

Example py_round_ties :
  py_round (1 # 2) = 0 ∧ py_round (3 # 2) = 2 ∧ py_round (5 # 2) = 2 ∧
  py_round (-3 # 2) = -2 ∧ py_round (div1000 1499) = 1 ∧
  py_round (div1000 1501) = 2.
Proof. repeat split; reflexivity. Qed.

End Rounding.

Section SequenceToVideoFacts.
Import SequenceToVideo SequenceToVideoSpec.
Context {U : Utils}.

(** *** The two builders, branch by branch *)

Lemma slideshow_by_images self timeline :
  ckbx_audio self = false ∨
  (ckbx_audio self = true ∧ Shortest (opt self) = shortest_enabled) →
  timing_of (build_command_slideshow self timeline)
  = {| totalDurationMs := getms timeline * Z.of_nat (length (file_src self));
       frameIntervalSeconds := PyInt (py_round (getsec timeline));
       clock := clockms (getms timeline * Z.of_nat (length (file_src self))) |}.
Proof.
  unfold build_command_slideshow.
  intros [Haudio|[Haudio Hshort]]; rewrite Haudio; [|rewrite Hshort];
    reflexivity.
Qed.

Lemma slideshow_by_audio self timeline :
  ckbx_audio self = true → Shortest (opt self) = shortest_disabled →
  timing_of (build_command_slideshow self timeline)
  = {| totalDurationMs := ADuration (opt self);
       frameIntervalSeconds := PyInt (py_round (getsec timeline));
       clock := clockms (ADuration (opt self)) |}.
Proof.
  unfold build_command_slideshow. intros -> ->. reflexivity.
Qed.

Lemma loop_image_by_timeline self timeline :
  ckbx_audio self = false →
  timing_of (build_command_loop_image self timeline)
  = {| totalDurationMs := getms timeline;
       frameIntervalSeconds := PyInt (py_round (div1000 (getms timeline)));
       clock := timeline |}.
Proof. unfold build_command_loop_image. intros ->. reflexivity. Qed.

Lemma loop_image_by_audio self timeline :
  ckbx_audio self = true → Shortest (opt self) = shortest_disabled →
  timing_of (build_command_loop_image self timeline)
  = {| totalDurationMs := ADuration (opt self);
       frameIntervalSeconds := PyInt (py_round (div1000 (ADuration (opt self))));
       clock := clockms (ADuration (opt self)) |}.
Proof. unfold build_command_loop_image. intros -> ->. reflexivity. Qed.

Lemma slideshow_preinput self timeline :
  Preinput (opt (fst (build_command_slideshow self timeline)))
  = slideshow_loop self +:+ " " +:+ framerate_of (py_round (getsec timeline)).
Proof.
  unfold build_command_slideshow, slideshow_loop.
  destruct (ckbx_audio self); [|reflexivity].
  destruct (py_truthy _); reflexivity.
Qed.

(** *** [get_args_line] *)

Lemma get_args_line_field self field :
  py_split (time_seq self) !! 3%nat = Some field →
  get_args_line self
  = Ret (if ckbx_static_img self
         then build_command_loop_image self (timeline_of field)
         else build_command_slideshow self (timeline_of field)).
Proof.
  intros Hfield. unfold get_args_line, py_index. rewrite Hfield.
  by destruct (ckbx_static_img self).
Qed.

Lemma get_args_line_short self :
  py_split (time_seq self) !! 3%nat = None →
  get_args_line self = Raise IndexError.
Proof. intros Hnone. unfold get_args_line, py_index. by rewrite Hnone. Qed.

(** The builders read the panel, not the time sequence of the main
    frame. *)
Lemma build_command_slideshow_time_seq ts self timeline :
  let r := build_command_slideshow self timeline in
  build_command_slideshow (set_time_seq ts self) timeline
  = (set_time_seq ts (fst r), snd r).
Proof.
  unfold build_command_slideshow. simpl.
  destruct (ckbx_audio self); [destruct (py_truthy _)|]; reflexivity.
Qed.

Lemma build_command_loop_image_time_seq ts self timeline :
  let r := build_command_loop_image self timeline in
  build_command_loop_image (set_time_seq ts self) timeline
  = (set_time_seq ts (fst r), snd r).
Proof.
  unfold build_command_loop_image. simpl.
  destruct (ckbx_audio self); [destruct (py_truthy _)|]; reflexivity.
Qed.

(** Without an audio track, [get_args_line] on a duration other than
    zero returns the duration of the builders on that very field. *)
Lemma get_args_line_total_no_audio self field :
  py_split (time_seq self) !! 3%nat = Some field →
  field ≠ "00:00:00.000" →
  ckbx_audio self = false →
  ∃ r, get_args_line self = Ret r ∧
       totalDurationMs (timing_of r)
       = if ckbx_static_img self then getms field
         else getms field * Z.of_nat (length (file_src self)).
Proof.
  intros Hfield Hnz Haudio. eexists. split; [by apply get_args_line_field|].
  unfold timeline_of. rewrite decide_False by exact Hnz.
  destruct (ckbx_static_img self).
  - by rewrite loop_image_by_timeline.
  - rewrite slideshow_by_images by (by left). reflexivity.
Qed.

(** *** The two values of ["Shortest"] *)

(** The handlers leave one of the two values in [self.opt["Shortest"]],
    and the flag is read as true exactly on the enabled one. *)
Lemma on_shortest_values self :
  Shortest (opt (on_shortest self))
  = if ckbx_shortest self then shortest_disabled else shortest_enabled.
Proof. unfold on_shortest. by destruct (ckbx_shortest self). Qed.

Lemma on_enable_audio_values self :
  Shortest (opt (on_enable_audio self))
  = if ckbx_audio self then shortest_enabled else shortest_disabled.
Proof. unfold on_enable_audio. by destruct (ckbx_audio self). Qed.

Lemma shortest_flag (v : string * string) :
  v = shortest_enabled ∨ v = shortest_disabled →
  py_truthy (fst v) = true ↔ v = shortest_enabled.
Proof. intros [->| ->]; split; try reflexivity; discriminate. Qed.

(** *** The claims on the timing *)

(** C2. In slideshow mode, without an audio track, or with one and
    ["Shortest"] enabled, the returned duration is the per-image duration
    in milliseconds times the number of files, and the interval is the
    per-image duration in seconds rounded to a nearest integer. *)
Theorem build_command_slideshow_by_image_count self timeline :
  ckbx_audio self = false ∨
  (ckbx_audio self = true ∧ Shortest (opt self) = shortest_enabled) →
  let r := timing_of (build_command_slideshow self timeline) in
  totalDurationMs r = getms timeline * Z.of_nat (length (file_src self)) ∧
  frameIntervalSeconds r = PyInt (py_round (getsec timeline)) ∧
  (Qabs (getsec timeline - inject_Z (py_round (getsec timeline))) <= 1 # 2)%Q.
Proof.
  intros Hmode r. subst r. rewrite slideshow_by_images by exact Hmode.
  simpl. split; [reflexivity|]. split; [reflexivity|].
  apply py_round_nearest.
Qed.

(** C4. With an audio track and ["Shortest"] disabled the returned
    duration is the duration of the audio track, from both builders and
    from [get_args_line], whatever the timeline and the files. *)
Theorem total_duration_audio_shortest_disabled self timeline :
  ckbx_audio self = true → Shortest (opt self) = shortest_disabled →
  totalDurationMs (timing_of (build_command_slideshow self timeline))
  = ADuration (opt self) ∧
  totalDurationMs (timing_of (build_command_loop_image self timeline))
  = ADuration (opt self) ∧
  (∀ field, py_split (time_seq self) !! 3%nat = Some field →
     ∃ r, get_args_line self = Ret r ∧
          totalDurationMs (timing_of r) = ADuration (opt self) ∧
          clock (timing_of r) = clockms (ADuration (opt self))).
Proof.
  intros Haudio Hshort.
  split; [by rewrite slideshow_by_audio|].
  split; [by rewrite loop_image_by_audio|].
  intros field Hfield. eexists. split; [by apply get_args_line_field|].
  destruct (ckbx_static_img self).
  - by rewrite loop_image_by_audio.
  - by rewrite slideshow_by_audio.
Qed.

(** C6. For a static video without an audio track the returned duration
    is the per-image duration itself, whatever the number of files, and
    the clock is the timeline. *)
Theorem build_command_loop_image_no_audio self timeline :
  ckbx_audio self = false →
  let r := timing_of (build_command_loop_image self timeline) in
  totalDurationMs r = getms timeline ∧ clock r = timeline.
Proof.
  intros Haudio r. subst r. by rewrite loop_image_by_timeline.
Qed.

(** C8, as the code has it. No duration is validated: on a negative
    per-image duration [get_args_line] returns a timing as on any other,
    and without an audio track the returned duration is negative or
    zero. *)
Theorem get_args_line_negative_duration self field :
  py_split (time_seq self) !! 3%nat = Some field →
  getms (timeline_of field) < 0 →
  ∃ r, get_args_line self = Ret r ∧
       (ckbx_audio self = false →
        totalDurationMs (timing_of r)
        = (if ckbx_static_img self
           then getms (timeline_of field)
           else getms (timeline_of field) * Z.of_nat (length (file_src self))) ∧
        totalDurationMs (timing_of r) <= 0).
Proof.
  intros Hfield Hneg. eexists. split; [by apply get_args_line_field|].
  intros Haudio. destruct (ckbx_static_img self).
  - rewrite loop_image_by_timeline by exact Haudio. simpl. split; [reflexivity|lia].
  - rewrite slideshow_by_images by (by left). simpl. split; [reflexivity|nia].
Qed.

(** C9. A time sequence whose duration reads ['00:00:00.000'] gets from
    [get_args_line] what the same panel gets on ['00:00:01.000']: the
    same returned pair and the same [self.opt]. *)
Theorem get_args_line_zero_duration self ts' :
  py_split (time_seq self) !! 3%nat = Some "00:00:00.000" →
  py_split ts' !! 3%nat = Some "00:00:01.000" →
  ∃ r r',
    get_args_line self = Ret r ∧
    get_args_line (set_time_seq ts' self) = Ret r' ∧
    r = (if ckbx_static_img self
         then build_command_loop_image self "00:00:01.000"
         else build_command_slideshow self "00:00:01.000") ∧
    snd r' = snd r ∧ opt (fst r') = opt (fst r) ∧ timing_of r' = timing_of r.
Proof.
  intros Hzero Hone.
  rewrite (get_args_line_field self _ Hzero).
  rewrite (get_args_line_field (set_time_seq ts' self) _ Hone).
  change (timeline_of "00:00:00.000") with "00:00:01.000".
  change (timeline_of "00:00:01.000") with "00:00:01.000".
  do 2 eexists. split; [reflexivity|]. split; [reflexivity|].
  split; [reflexivity|]. simpl.
  destruct (ckbx_static_img self).
  - by rewrite build_command_loop_image_time_seq.
  - by rewrite build_command_slideshow_time_seq.
Qed.

(** C10. The Preinput of a slideshow ends with [-framerate 1/d] where
    [d] is 1 when the rounded interval is 0 and the interval otherwise:
    [d] is never 0 and ['-framerate 1/0'] is never written. [d] is
    positive exactly when the rounded interval is not negative, which
    it is on every per-image duration that is not negative; a negative
    interval is written as it is. *)
Theorem build_command_slideshow_framerate self timeline :
  let sec := py_round (getsec timeline) in
  let den := framerate_denominator sec in
  Preinput (opt (fst (build_command_slideshow self timeline)))
  = slideshow_loop self +:+ " " +:+ framerate_of sec ∧
  framerate_of sec = "-framerate 1/" +:+ pretty den ∧
  (sec = 0 → framerate_of sec = "-framerate 1/1") ∧
  (sec ≠ 0 → framerate_of sec = "-framerate 1/" +:+ pretty sec) ∧
  den ≠ 0 ∧
  framerate_of sec ≠ "-framerate 1/0" ∧
  (0 < den ↔ 0 <= sec) ∧
  (sec < 0 → den = sec) ∧
  ((0 <= getsec timeline)%Q → 0 <= sec).
Proof.
  intros sec den. subst den.
  split; [apply slideshow_preinput|].
  assert ((0 <= getsec timeline)%Q → 0 <= sec) as Hround
    by apply py_round_nonneg.
  unfold framerate_of, framerate_denominator.
  destruct (decide (sec = 0)) as [Hz|Hnz].
  - repeat split; try reflexivity; try lia; try discriminate; done.
  - repeat split; try reflexivity; try lia; try congruence; try done.
    intros Heq. apply (inj (String.app "-framerate 1/")) in Heq.
    change "0" with (pretty 0) in Heq. apply (inj pretty) in Heq. lia.
Qed.

End SequenceToVideoFacts.

(** *** The claims on sample panels, with the model of the time helpers *)

Section SequenceToVideoSamples.
Import SequenceToVideo SequenceToVideoSpec.

Lemma build_command_slideshow_by_image_count_witness :
  let self := sample_panel "00:00:01.000" 3 false false shortest_disabled 0 in
  let r := timing_of (build_command_slideshow (U:=ClockModel.model) self "00:00:01.000") in
  totalDurationMs r = 3000 ∧ frameIntervalSeconds r = PyInt 1.
Proof.
  intros self r.
  destruct (build_command_slideshow_by_image_count (U:=ClockModel.model)
              self "00:00:01.000") as (Htotal & Hsec & _).
  - left. reflexivity.
  - split; [exact Htotal|exact Hsec].
Defined.

Lemma total_duration_audio_shortest_disabled_witness :
  let self := sample_panel "00:00:05.000" 3 false true shortest_disabled 12345 in
  totalDurationMs
    (timing_of (build_command_slideshow (U:=ClockModel.model) self "00:00:05.000"))
  = 12345 ∧
  totalDurationMs
    (timing_of (build_command_loop_image (U:=ClockModel.model) self "00:00:05.000"))
  = 12345 ∧
  ∃ r, get_args_line (U:=ClockModel.model) self = Ret r ∧
       totalDurationMs (timing_of r) = 12345 ∧
       clock (timing_of r) = "00:00:12.345".
Proof.
  intros self.
  destruct (total_duration_audio_shortest_disabled (U:=ClockModel.model)
              self "00:00:05.000") as (Hslide & Hloop & Hargs).
  - reflexivity.
  - reflexivity.
  - split; [exact Hslide|]. split; [exact Hloop|].
    apply (Hargs "00:00:05.000"). reflexivity.
Defined.

Lemma build_command_loop_image_no_audio_witness :
  let self := sample_panel "00:00:05.000" 1 true false shortest_disabled 0 in
  let r := timing_of (build_command_loop_image (U:=ClockModel.model) self "00:00:05.000") in
  totalDurationMs r = 5000 ∧ clock r = "00:00:05.000".
Proof.
  intros self r.
  apply (build_command_loop_image_no_audio (U:=ClockModel.model)
           self "00:00:05.000").
  reflexivity.
Defined.

Lemma get_args_line_negative_duration_witness :
  let self := sample_panel "00:00:-1.000" 3 false false shortest_disabled 0 in
  ∃ r, get_args_line (U:=ClockModel.model) self = Ret r ∧
       (ckbx_audio self = false →
        totalDurationMs (timing_of r) = -3000 ∧
        totalDurationMs (timing_of r) <= 0).
Proof.
  intros self.
  apply (get_args_line_negative_duration (U:=ClockModel.model)
           self "00:00:-1.000").
  - reflexivity.
  - reflexivity.
Defined.

(** C8 as stated fails: a static video on the timeline ['00:00:-1.000'],
    a per-image duration of -1000 ms, gets a timing and no error. *)
Lemma get_args_line_negative_counterexample :
  let self := sample_panel "00:00:-1.000" 1 true false shortest_disabled 0 in
  py_split (time_seq self) !! 3%nat = Some "00:00:-1.000" ∧
  getms (Utils:=ClockModel.model) "00:00:-1.000" = -1000 ∧
  ∃ r, get_args_line (U:=ClockModel.model) self = Ret r ∧
       timing_of r = {| totalDurationMs := -1000;
                        frameIntervalSeconds := PyInt (-1);
                        clock := "00:00:-1.000" |}.
Proof.
  intros self. split; [reflexivity|]. split; [reflexivity|].
  eexists. split; reflexivity.
Qed.

Lemma get_args_line_zero_duration_witness :
  let self := sample_panel "00:00:00.000" 3 false false shortest_disabled 0 in
  ∃ r r',
    get_args_line (U:=ClockModel.model) self = Ret r ∧
    get_args_line (U:=ClockModel.model)
      (set_time_seq "-ss 00:00:00.000 -t 00:00:01.000" self) = Ret r' ∧
    r = build_command_slideshow (U:=ClockModel.model) self "00:00:01.000" ∧
    snd r' = snd r ∧ opt (fst r') = opt (fst r) ∧ timing_of r' = timing_of r.
Proof.
  intros self.
  apply (get_args_line_zero_duration (U:=ClockModel.model)
           self "-ss 00:00:00.000 -t 00:00:01.000").
  - reflexivity.
  - reflexivity.
Defined.

Lemma build_command_slideshow_framerate_witness :
  (Preinput (opt (fst (build_command_slideshow (U:=ClockModel.model)
      (sample_panel "00:00:00.400" 3 false false shortest_disabled 0)
      "00:00:00.400")))
   = " -framerate 1/1") ∧
  (Preinput (opt (fst (build_command_slideshow (U:=ClockModel.model)
      (sample_panel "00:00:03.000" 3 false false shortest_disabled 0)
      "00:00:03.000")))
   = " -framerate 1/3" ∧
   0 < framerate_denominator
         (py_round (getsec (Utils:=ClockModel.model) "00:00:03.000"))) ∧
  (Preinput (opt (fst (build_command_slideshow (U:=ClockModel.model)
      (sample_panel "00:00:03.000" 3 false true shortest_disabled 12345)
      "00:00:03.000")))
   = "-loop 1 -t 00:00:12.345 -framerate 1/3").
Proof.
  split; [|split; [split|]].
  - exact (proj1 (build_command_slideshow_framerate (U:=ClockModel.model)
             (sample_panel "00:00:00.400" 3 false false shortest_disabled 0)
             "00:00:00.400")).
  - exact (proj1 (build_command_slideshow_framerate (U:=ClockModel.model)
             (sample_panel "00:00:03.000" 3 false false shortest_disabled 0)
             "00:00:03.000")).
  - destruct (build_command_slideshow_framerate (U:=ClockModel.model)
                (sample_panel "00:00:03.000" 3 false false shortest_disabled 0)
                "00:00:03.000") as (_ & _ & _ & _ & _ & _ & Hpos & _ & Hround).
    apply Hpos, Hround. vm_compute. discriminate.
  - exact (proj1 (build_command_slideshow_framerate (U:=ClockModel.model)
             (sample_panel "00:00:03.000" 3 false true shortest_disabled 12345)
             "00:00:03.000")).
Defined.

(** C10 as stated fails: the slideshow on the timeline ['00:00:-1.000']
    gets the interval -1 and the denominator -1, which is not positive,
    from [build_command_slideshow] and so from [get_args_line]. *)
Lemma build_command_slideshow_framerate_counterexample :
  let self := sample_panel "00:00:-1.000" 3 false false shortest_disabled 0 in
  let sec := py_round (getsec (Utils:=ClockModel.model) "00:00:-1.000") in
  sec = -1 ∧
  Preinput (opt (fst (build_command_slideshow (U:=ClockModel.model)
                        self "00:00:-1.000")))
  = " -framerate 1/-1" ∧
  (∃ r, get_args_line (U:=ClockModel.model) self = Ret r ∧
        Preinput (opt (fst r)) = " -framerate 1/-1") ∧
  ¬ 0 < framerate_denominator sec.
Proof.
  intros self sec. split; [reflexivity|]. split; [reflexivity|].
  split; [eexists; split; reflexivity|].
  vm_compute. discriminate.
Qed.

(** The model of the time helpers on a few clocks. *)
Example clock_model_samples :
  ClockModel.get_milliseconds "01:02:03.250" = 3723250 ∧
  ClockModel.get_milliseconds "00:00:-1.000" = -1000 ∧
  py_round (ClockModel.get_seconds "00:00:02.500") = 2 ∧
  py_round (ClockModel.get_seconds "00:00:03.500") = 4 ∧
  ClockModel.milliseconds2clock 3723250 = "01:02:03.250" ∧
  ClockModel.milliseconds2clock 360000000 = "100:00:00.000".
Proof. repeat split; reflexivity. Qed.

(** The examples of the specification, through [get_args_line]. *)
Example slideshow_three_images :
  ∃ r, get_args_line (U:=ClockModel.model)
         (sample_panel "00:00:01.000" 3 false false shortest_disabled 0) = Ret r ∧
       timing_of r = {| totalDurationMs := 3000;
                        frameIntervalSeconds := PyInt 1;
                        clock := "00:00:03.000" |}.
Proof. eexists. split; reflexivity. Qed.

Example static_loop_five_seconds :
  ∃ r, get_args_line (U:=ClockModel.model)
         (sample_panel "00:00:05.000" 1 true false shortest_disabled 0) = Ret r ∧
       timing_of r = {| totalDurationMs := 5000;
                        frameIntervalSeconds := PyInt 5;
                        clock := "00:00:05.000" |}.
Proof. eexists. split; reflexivity. Qed.

Example audio_track_decides :
  ∃ r, get_args_line (U:=ClockModel.model)
         (sample_panel "00:00:05.000" 3 false true shortest_disabled 12345) = Ret r ∧
       timing_of r = {| totalDurationMs := 12345;
                        frameIntervalSeconds := PyInt 5;
                        clock := "00:00:12.345" |} ∧
       Preinput (opt (fst r)) = "-loop 1 -t 00:00:12.345 -framerate 1/5".
Proof. eexists. split; [reflexivity|]. split; reflexivity. Qed.

(** A time sequence of fewer than four fields, such as the empty one,
    makes [get_args_line] raise. *)
Example get_args_line_empty_time_seq :
  get_args_line (U:=ClockModel.model)
    (set_time_seq "" (sample_panel "00:00:05.000" 3 false false shortest_disabled 0))
  = Raise IndexError.
Proof. reflexivity. Qed.

End SequenceToVideoSamples.

(** * Further properties of [compare_media_param] *)

Section ConcatenateLookupFacts.
Import Concatenate ConcatenateSpec ConcatenateLookup.
Local Open Scope list_scope.

Lemma lookup_com_setitem n k v com :
  lookup_com n (setitem k v com)
  = if decide (n = k) then Some v else lookup_com n com.
Proof.
  induction com as [|[k' v'] com IH]; simpl.
  - reflexivity.
  - destruct (decide (k = k')) as [->|Hkk']; simpl.
    + by destruct (decide (n = k')).
    + rewrite IH. destruct (decide (n = k')) as [->|]; [|reflexivity].
      by rewrite decide_False by congruence.
Qed.

Lemma last_cons_filter {A} (P : A → Prop) `{∀ x, Decision (P x)} x (l : list A) :
  last (filter P (x :: l))
  = match last (filter P l) with
    | Some y => Some y
    | None => if decide (P x) then Some x else None
    end.
Proof.
  rewrite filter_cons. destruct (decide (P x)); [|by destruct (last _)].
  destruct (filter P l) as [|y l'] eqn:Hl; [reflexivity|].
  rewrite last_cons. by destruct (last (y :: l')) eqn:Hlast.
Qed.

Lemma last_cons_omap {A B} (g : A → option B) x (l : list A) :
  last (omap g (x :: l))
  = match last (omap g l) with
    | Some y => Some y
    | None => g x
    end.
Proof.
  change (omap g (x :: l))
    with (match g x with Some y => y :: omap g l | None => omap g l end).
  destruct (g x) as [y|]; [|by destruct (last _)].
  destruct (omap g l) as [|z l'] eqn:Hl; [reflexivity|].
  rewrite last_cons. by destruct (last (z :: l')).
Qed.

Lemma foldl_file_step_lookup n data com :
  lookup_com n (foldl file_step com data)
  = match last (filter (fun f => file_name f = n) data) with
    | Some f => Some (file_signature f)
    | None => lookup_com n com
    end.
Proof.
  revert com. induction data as [|f data IH]; intros com; [reflexivity|].
  simpl foldl. rewrite IH, last_cons_filter.
  destruct (last (filter _ data)); [reflexivity|].
  unfold file_step. rewrite lookup_com_setitem.
  destruct (decide (file_name f = n)) as [<-|Hne].
  - by rewrite decide_True.
  - by rewrite decide_False by congruence.
Qed.

(** X4. What [com] holds for a file name is the signature of the last
    file of that name in [data]; a name no file has is not a key. *)
Theorem build_com_last_wins n data :
  lookup_com n (build_com data)
  = file_signature <$> last (filter (fun f => file_name f = n) data).
Proof.
  unfold build_com. rewrite foldl_file_step_lookup.
  by destruct (last _).
Qed.

Lemma foldl_stream_step_lookup k ss (sig : signature) :
  foldl stream_step sig ss !! k
  = match last (omap (entry_at k) ss) with
    | Some e => Some e
    | None => sig !! k
    end.
Proof.
  revert sig. induction ss as [|items ss IH]; intros sig; [reflexivity|].
  simpl foldl. rewrite IH, last_cons_omap.
  destruct (last (omap _ ss)); [reflexivity|].
  rewrite stream_step_entry. unfold entry_at.
  destruct (decide (get "index" items = k)) as [<-|Hne].
  - by destruct (stream_entry items); [rewrite lookup_insert_eq|].
  - by destruct (stream_entry items); [rewrite lookup_insert_ne|].
Qed.

Lemma file_signature_lookup_last k f :
  file_signature f !! k = last (omap (entry_at k) (streams f)).
Proof.
  unfold file_signature. rewrite foldl_stream_step_lookup.
  by destruct (last _).
Qed.

(** X5. The signature of a file holds, at each index, the entry of the
    last video or audio stream of that index, and nothing at an index no
    such stream has. *)
Theorem file_signature_last_wins k f :
  file_signature f !! k = last (omap (entry_at k) (streams f)).
Proof. apply file_signature_lookup_last. Qed.

Lemma entry_at_index k items e :
  entry_at k items = Some e → get "index" items = k.
Proof. unfold entry_at. by case_decide. Qed.

Lemma omap_entry_at_short k ss :
  NoDup (get "index" <$> ss) → (length (omap (entry_at k) ss) ≤ 1)%nat.
Proof.
  induction ss as [|items ss IH]; intros Hnd; [simpl; lia|].
  rewrite fmap_cons in Hnd. apply NoDup_cons in Hnd as [Hnotin Hnd].
  change (omap (entry_at k) (items :: ss))
    with (match entry_at k items with
          | Some y => y :: omap (entry_at k) ss
          | None => omap (entry_at k) ss end).
  destruct (entry_at k items) as [e|] eqn:He; [|by apply IH].
  apply entry_at_index in He.
  destruct (omap (entry_at k) ss) as [|e' l] eqn:Hl; [simpl; lia|].
  exfalso. apply Hnotin.
  assert (e' ∈ omap (entry_at k) ss) as Hin by (rewrite Hl; left).
  apply list_elem_of_omap in Hin as (items' & Hin & He').
  apply entry_at_index in He'. rewrite He, <- He'.
  by apply list_elem_of_fmap_2.
Qed.

Lemma short_permutation_eq {A} (l l' : list A) :
  (length l ≤ 1)%nat → l ≡ₚ l' → l = l'.
Proof.
  intros Hlen Hperm. destruct l as [|x [|y l]]; simpl in Hlen; try lia.
  - by apply Permutation_nil_l in Hperm.
  - by apply Permutation_singleton_l in Hperm.
Qed.

(** X6. When the stream indices of a file are distinct, the order of its
    streams has no part in its signature. *)
Theorem file_signature_stream_order f ss :
  NoDup (get "index" <$> streams f) →
  streams f ≡ₚ ss →
  file_signature (with_streams ss f) = file_signature f.
Proof.
  intros Hnd Hperm. apply map_eq. intros k.
  rewrite !file_signature_lookup_last. simpl. f_equal.
  symmetry. apply short_permutation_eq.
  - by apply omap_entry_at_short.
  - by rewrite Hperm.
Qed.

Lemma file_signature_stream_order_witness :
  file_signature (with_streams [audio_stream "48000"; video_stream 1920 1080] clip_a)
  = file_signature clip_a.
Proof.
  apply (file_signature_stream_order clip_a
           [audio_stream "48000"; video_stream 1920 1080]).
  - apply (bool_decide_unpack _). vm_compute. exact I.
  - apply Permutation_swap.
Defined.

(** *** The messages *)

Lemma messages_distinct :
  msg_two_files ≠ msg_invalid_data ∧ msg_two_files ≠ msg_mismatch ∧
  msg_invalid_data ≠ msg_mismatch.
Proof. repeat split; vm_compute; discriminate. Qed.

(** X1. Which answer [compare_media_param] gives is decided by the number
    of files first: the message of invalid data for the empty list and
    for it only, the message that two files are required for one file and
    for it only, and [None] or the message of a mismatch from two files
    on. *)
Theorem compare_media_param_messages data :
  (compare_media_param data = Some msg_invalid_data ↔ data = []) ∧
  (compare_media_param data = Some msg_two_files ↔ length data = 1%nat) ∧
  (compare_media_param data = None ∨
   compare_media_param data = Some msg_mismatch ↔ (2 ≤ length data)%nat).
Proof.
  destruct messages_distinct as (H12 & H13 & H23).
  destruct (decide (2 ≤ length data)%nat) as [Hge|Hlt].
  - assert (data ≠ []) by (intros ->; simpl in Hge; lia).
    destruct (compare_media_param_outcomes data Hge) as [Hc|Hc]; rewrite Hc;
      repeat split; intros; try done; try lia; try congruence; auto.
  - destruct data as [|f [|g data]]; simpl in Hlt; try lia.
    + change (compare_media_param []) with (Some msg_invalid_data).
      repeat split; intros; try done; try lia; try congruence;
        try (by destruct_or!; congruence).
    + change (compare_media_param [f]) with (Some msg_two_files).
      repeat split; intros; try done; try lia; try congruence;
        try (by destruct_or!; congruence).
Qed.

(** X2. On at least two files of distinct names the check passes exactly
    when all the files have the same signature. *)
Theorem compare_media_param_None_distinct data :
  (2 ≤ length data)%nat →
  NoDup (file_name <$> data) →
  compare_media_param data = None
  ↔ ∀ f g, f ∈ data → g ∈ data → file_signature f = file_signature g.
Proof.
  intros Hlen Hnd.
  rewrite compare_media_param_None_iff by exact Hlen.
  rewrite build_com_distinct by exact Hnd. split.
  - intros Hsame f g Hf Hg.
    apply Hsame; by apply list_elem_of_fmap_2.
  - intros Hsame v w Hv Hw.
    apply list_elem_of_fmap in Hv as (f & -> & Hf).
    apply list_elem_of_fmap in Hw as (g & -> & Hg). by apply Hsame.
Qed.

Lemma compare_media_param_None_distinct_witness :
  compare_media_param [clip_a; clip_b] = None
  ↔ ∀ f g, f ∈ [clip_a; clip_b] → g ∈ [clip_a; clip_b] →
           file_signature f = file_signature g.
Proof.
  apply (compare_media_param_None_distinct [clip_a; clip_b]).
  - simpl. lia.
  - apply (bool_decide_unpack _). vm_compute. exact I.
Defined.

Lemma compare_media_param_perm_distinct_witness :
  compare_media_param [clip_b_narrow; clip_a]
  = compare_media_param [clip_a; clip_b_narrow].
Proof.
  apply (compare_media_param_perm_distinct [clip_a; clip_b_narrow]).
  - apply (bool_decide_unpack _). vm_compute. exact I.
  - apply Permutation_swap.
Defined.

End ConcatenateLookupFacts.

(** * Properties of the checks of sequence_to_video.py *)

Section ImageSizeFacts.
Import Concatenate ConcatenateSpec SequenceToVideo SequenceToVideoPanel.
Local Open Scope list_scope.

(** The sizes the loop of [check_images_size] appends, file by file. *)
Lemma collect_sizes_values flist acc :
  (∀ f, f ∈ flist → ∃ o, image_size f = Value o) →
  ∃ sizes,
    collect_sizes acc flist = Value (acc ++ sizes) ∧
    ∀ s, s ∈ sizes ↔ ∃ f, f ∈ flist ∧ image_size f = Value (Some s).
Proof.
  revert acc. induction flist as [|f flist IH]; intros acc Hok.
  - exists []. split; [by rewrite app_nil_r|].
    intros s. split; [by intros ?%elem_of_nil|].
    by intros (f & ?%elem_of_nil & _).
  - destruct (Hok f) as [o Ho]; [left|].
    destruct (IH (acc ++ option_list o)) as (sizes & Hsizes & Hin).
    { intros g Hg. apply Hok. by right. }
    exists (option_list o ++ sizes). split.
    + simpl. rewrite Ho. simpl. by rewrite Hsizes, app_assoc.
    + intros s. rewrite elem_of_app, Hin. split.
      * intros [Hs|(g & Hg & Hgs)].
        -- exists f. split; [left|].
           destruct o; simpl in Hs;
             [apply list_elem_of_singleton in Hs as ->|by apply elem_of_nil in Hs].
           exact Ho.
        -- exists g. split; [by right|exact Hgs].
      * intros (g & Hg & Hgs). apply elem_of_cons in Hg as [->|Hg].
        -- left. rewrite Ho in Hgs. injection Hgs as ->. simpl. left.
        -- right. by exists g.
Qed.

Lemma size_at_most_one (sizes : list string) :
  ¬ (1 < size (list_to_set sizes : gset string))%nat
  ↔ ∀ s t, s ∈ sizes → t ∈ sizes → s = t.
Proof.
  split.
  - intros Hsize s t Hs Ht.
    apply (elem_of_list_to_set (C:=gset string)) in Hs.
    apply (elem_of_list_to_set (C:=gset string)) in Ht.
    destruct (decide (s = t)) as [|Hne]; [done|]. exfalso. apply Hsize.
    assert ({[s; t]} ⊆ (list_to_set sizes : gset string)) as Hsub
      by set_solver.
    apply subseteq_size in Hsub.
    rewrite size_union, !size_singleton in Hsub by set_solver. lia.
  - intros Hsame Hsize.
    destruct sizes as [|s sizes].
    { rewrite list_to_set_nil, size_empty in Hsize. lia. }
    assert ((list_to_set (s :: sizes) : gset string) ⊆ {[s]}) as Hsub.
    { intros t Ht. apply elem_of_list_to_set in Ht.
      apply elem_of_singleton. symmetry. apply Hsame; [left|exact Ht]. }
    apply subseteq_size in Hsub. rewrite size_singleton in Hsub. lia.
Qed.

Lemma check_images_size_cases flist :
  (∀ f, f ∈ flist → ∃ o, image_size f = Value o) →
  (check_images_size flist = Value Passed ∨
   check_images_size flist = Value (Rejected msg_resize)) ∧
  (check_images_size flist = Value Passed ↔
   ∀ f g s t, f ∈ flist → g ∈ flist →
     image_size f = Value (Some s) → image_size g = Value (Some t) → s = t).
Proof.
  intros Hok. unfold check_images_size.
  destruct (collect_sizes_values flist [] Hok) as (sizes & -> & Hin).
  simpl. destruct (decide _) as [Hgt|Hle].
  - split; [by right|]. split; [discriminate|].
    intros Hsame. exfalso. revert Hgt. apply size_at_most_one.
    intros s t Hs Ht. apply Hin in Hs as (f & Hf & Hfs).
    apply Hin in Ht as (g & Hg & Hgt'). exact (Hsame f g s t Hf Hg Hfs Hgt').
  - split; [by left|]. split; [|done]. intros _ f g s t Hf Hg Hfs Hgt.
    apply size_at_most_one with (s := s) (t := t) in Hle; [done|..];
      apply Hin; eauto.
Qed.

(** X7. When no file makes it raise, [check_images_size] passes exactly
    when the files whose first stream is a video stream all have the same
    size string, and asks for a resizing otherwise; the other files have
    no part in it. *)
Theorem check_images_size_passes flist :
  (∀ f, f ∈ flist → ∃ o, image_size f = Value o) →
  (check_images_size flist = Value Passed ∨
   check_images_size flist = Value (Rejected msg_resize)) ∧
  (check_images_size flist = Value Passed ↔
   ∀ f g s t, f ∈ flist → g ∈ flist →
     image_size f = Value (Some s) → image_size g = Value (Some t) → s = t).
Proof. apply check_images_size_cases. Qed.

Lemma image_size_video w h :
  image_size (sample_file "x" [video_stream w h])
  = Value (Some (pretty w +:+ "x" +:+ pretty h)).
Proof. reflexivity. Qed.

Lemma sample_clips_ok f :
  f ∈ [clip_a; clip_b_narrow; subs_a] → ∃ o, image_size f = Value o.
Proof.
  intros Hf. repeat (apply elem_of_cons in Hf as [->|Hf]);
    [by eexists..|by apply elem_of_nil in Hf].
Qed.

Lemma check_images_size_passes_witness :
  check_images_size [clip_a; clip_b_narrow; subs_a]
  = Value (Rejected msg_resize).
Proof.
  destruct (check_images_size_passes [clip_a; clip_b_narrow; subs_a]
              sample_clips_ok) as [[Hpass|Hrej] _].
  - vm_compute in Hpass. discriminate Hpass.
  - exact Hrej.
Defined.

(** X8. The order of the files has no part in the answer of
    [check_images_size], when no file makes it raise. *)
Theorem check_images_size_perm flist flist' :
  (∀ f, f ∈ flist → ∃ o, image_size f = Value o) →
  flist ≡ₚ flist' →
  check_images_size flist' = check_images_size flist.
Proof.
  intros Hok Hperm.
  assert (∀ f, f ∈ flist' → ∃ o, image_size f = Value o) as Hok'.
  { intros f Hf. apply Hok. by rewrite Hperm. }
  destruct (check_images_size_cases flist Hok) as [Hcases Hiff].
  destruct (check_images_size_cases flist' Hok') as [Hcases' Hiff'].
  assert (check_images_size flist = Value Passed
          ↔ check_images_size flist' = Value Passed) as Hboth.
  { rewrite Hiff, Hiff'. by setoid_rewrite Hperm. }
  destruct Hcases as [H|H], Hcases' as [H'|H']; rewrite H, H'; try done.
  - apply Hboth in H. congruence.
  - apply Hboth in H'. congruence.
Qed.

Lemma check_images_size_perm_witness :
  check_images_size [subs_a; clip_b_narrow; clip_a]
  = check_images_size [clip_a; clip_b_narrow; subs_a].
Proof.
  apply (check_images_size_perm [clip_a; clip_b_narrow; subs_a]).
  - exact sample_clips_ok.
  - apply Permutation_rev.
Defined.

Lemma collect_sizes_raises pre f post acc e :
  (∀ g, g ∈ pre → ∃ o, image_size g = Value o) →
  image_size f = Raised e →
  collect_sizes acc (pre ++ f :: post) = Raised e.
Proof.
  revert acc. induction pre as [|g pre IH]; intros acc Hok He; simpl.
  - by rewrite He.
  - destruct (Hok g) as [o Ho]; [left|]. rewrite Ho. simpl.
    apply IH; [|exact He]. intros g' Hg'. apply Hok. by right.
Qed.

(** X9. A file that makes the loop body raise makes [check_images_size]
    raise the same exception, when the files before it do not raise: an
    [IndexError] for a file without streams, a [KeyError] for a first
    stream without codec type, a [TypeError] for a codec type that is no
    string. *)
Theorem check_images_size_raises pre f post :
  (∀ g, g ∈ pre → ∃ o, image_size g = Value o) →
  (streams f = [] →
   check_images_size (pre ++ f :: post) = Raised Exception_IndexError) ∧
  (∀ s ss, streams f = s :: ss → s !! "codec_type" = None →
   check_images_size (pre ++ f :: post) = Raised Exception_KeyError) ∧
  (∀ s ss, streams f = s :: ss →
   s !! "codec_type" = Some PyNone ∨ (∃ z, s !! "codec_type" = Some (PyInt z)) →
   check_images_size (pre ++ f :: post) = Raised Exception_TypeError).
Proof.
  intros Hok. unfold check_images_size. repeat split.
  - intros Hs. rewrite (collect_sizes_raises pre f post [] Exception_IndexError);
      [done|done|].
    unfold image_size, first_stream, list_getitem. by rewrite Hs.
  - intros s ss Hs Hct.
    rewrite (collect_sizes_raises pre f post [] Exception_KeyError);
      [done|done|].
    unfold image_size, first_stream, list_getitem. rewrite Hs. simpl.
    unfold getitem. by rewrite Hct.
  - intros s ss Hs Hct.
    rewrite (collect_sizes_raises pre f post [] Exception_TypeError);
      [done|done|].
    unfold image_size, first_stream, list_getitem. rewrite Hs. simpl.
    unfold getitem. by destruct Hct as [->|[z ->]].
Qed.

Lemma check_images_size_raises_witness :
  check_images_size ([clip_a] ++ sample_file "empty.png" [] :: [clip_b])
  = Raised Exception_IndexError.
Proof.
  apply (check_images_size_raises [clip_a] (sample_file "empty.png" []) [clip_b]).
  - intros g Hg. apply list_elem_of_singleton in Hg as ->. by eexists.
  - reflexivity.
Defined.

End ImageSizeFacts.

Section FileSelectionFacts.
Import SequenceToVideo SequenceToVideoSpec SequenceToVideoPanel.
Local Open Scope list_scope.

(** X10. The pair [file_selection] returns names a file of the list and
    its first position in it. *)
Theorem file_selection_sound self sel f i :
  file_selection self sel = Value (Some (f, i)) →
  file_src self !! i = Some f ∧
  ∀ j, file_src self !! j = Some f → (i ≤ j)%nat.
Proof.
  unfold file_selection. case_decide as Hlen.
  - destruct (file_src self) as [|x [|y l]]; simpl in Hlen; try lia.
    simpl. intros [= <- <-]. split; [reflexivity|]. intros j _. lia.
  - destruct sel as [[|a clicked]|]; try discriminate.
    unfold list_index.
    destruct (list_find _ _) as [[k y]|] eqn:Hfind; simpl; [|discriminate].
    intros [= <- <-]. apply list_find_Some in Hfind as (Hk & -> & Hfirst).
    split; [exact Hk|]. intros j Hj.
    destruct (decide (k ≤ j)%nat) as [|Hlt]; [done|].
    exfalso. apply (Hfirst j _ Hj); [lia|reflexivity].
Qed.

Lemma file_selection_sound_witness :
  let self := sample_panel "00:00:05.000" 3 false false shortest_disabled 0 in
  file_src self !! 0%nat = Some "image.png" ∧
  ∀ j, file_src self !! j = Some "image.png" → (0 ≤ j)%nat.
Proof.
  intros self.
  apply (file_selection_sound self (Some "image.png") "image.png" 0).
  reflexivity.
Defined.

(** X11. [file_selection] raises in one case only: a [ValueError], when
    the list has not exactly one file and the selected name is not
    empty and not in the list. With exactly one file the selection is not
    looked at. *)
Theorem file_selection_raises self sel e :
  file_selection self sel = Raised e ↔
  e = Exception_ValueError ∧ length (file_src self) ≠ 1%nat ∧
  ∃ clicked, sel = Some clicked ∧ clicked ≠ "" ∧ clicked ∉ file_src self.
Proof.
  unfold file_selection. case_decide as Hlen.
  - destruct (file_src self) as [|x [|y l]]; simpl in Hlen; try lia.
    simpl. split; [discriminate|]. by intros (_ & ? & _).
  - destruct sel as [[|a clicked]|].
    + split; [discriminate|]. by intros (_ & _ & c & [= <-] & ? & _).
    + unfold list_index.
      destruct (list_find _ _) as [[k y]|] eqn:Hfind; simpl.
      * split; [discriminate|]. intros (_ & _ & c & [= <-] & _ & Hnotin).
        apply list_find_Some in Hfind as (Hk & -> & _).
        exfalso. apply Hnotin. by eapply list_elem_of_lookup_2.
      * apply list_find_None in Hfind. split.
        -- intros [= <-]. split; [done|]. split; [done|].
           eexists. split; [done|]. split; [done|].
           intros Hin. rewrite Forall_forall in Hfind.
           by apply (Hfind _ Hin).
        -- by intros (-> & _).
    + split; [discriminate|]. by intros (_ & _ & c & ? & _).
Qed.

End FileSelectionFacts.

Section CheckToSlideFacts.
Import SequenceToVideo SequenceToVideoPanel.
Context {O : OsPath}.
Local Open Scope list_scope.

Lemma check_to_loop_Passed typemedia clicked :
  check_to_loop typemedia clicked = Passed ↔
  invalid_type typemedia = false ∧ splitext_ext clicked ∈ supported ∧
  isfile clicked = true.
Proof.
  unfold check_to_loop.
  destruct (invalid_type typemedia); [by split; [|intros (? & _)]|].
  case_bool_decide as Hext; [|by split; [|intros (_ & ? & _)]].
  destruct (isfile clicked); [done|]. by split; [|intros (_ & _ & ?)].
Qed.

Lemma Forall2_conj {A B} (P : A → Prop) (Q : B → Prop) l k :
  Forall2 (fun a b => P a ∧ Q b) l k
  ↔ length l = length k ∧ Forall P l ∧ Forall Q k.
Proof.
  split.
  - induction 1 as [|a b l k [Ha Hb] _ (Hlen & Hl & Hk)]; [done|].
    simpl. split; [lia|]. by split; constructor.
  - revert k. induction l as [|a l IH]; intros [|b k] (Hlen & Hl & Hk);
      simpl in Hlen; try lia; [constructor|].
    apply Forall_cons in Hl as [Ha Hl]. apply Forall_cons in Hk as [Hb Hk].
    constructor; [done|]. apply IH. split; [lia|done].
Qed.

(** X12. On a file list control with one row for each source file,
    [check_to_slide] raises nothing, and it passes exactly when each file,
    with the text of its row, passes [check_to_loop]. *)
Theorem check_to_slide_as_check_to_loop column3 fsource :
  length column3 = length fsource →
  (∃ c, check_to_slide column3 fsource = Value c) ∧
  (check_to_slide column3 fsource = Value Passed ↔
   Forall2 (fun t f => check_to_loop t f = Passed) column3 fsource).
Proof.
  intros Hlen.
  assert (Forall2 (fun t f => check_to_loop t f = Passed) column3 fsource
          ↔ Forall (fun t => invalid_type t = false) column3 ∧
            Forall (fun f => splitext_ext f ∈ supported ∧ isfile f = true)
                   fsource) as ->.
  { split.
    - intros H. eapply Forall2_impl in H;
        [|intros t f Ht; apply check_to_loop_Passed in Ht; exact Ht].
      by apply (Forall2_conj (fun t => invalid_type t = false)
                  (fun f => splitext_ext f ∈ supported ∧ isfile f = true))
        in H as (_ & ? & ?).
    - intros [Ht Hf].
      eapply Forall2_impl;
        [|intros t f Htf; apply check_to_loop_Passed; exact Htf].
      by apply (Forall2_conj (fun t => invalid_type t = false)
                  (fun f => splitext_ext f ∈ supported ∧ isfile f = true)). }
  unfold check_to_slide.
  destruct (list_find _ column3) as [[x t]|] eqn:Htypes.
  - apply list_find_Some in Htypes as (Hx & Hinv & _).
    pose proof (lookup_lt_Some _ _ _ Hx) as Hlt. rewrite Hlen in Hlt.
    apply lookup_lt_is_Some in Hlt as [f Hf].
    unfold list_getitem. rewrite Hf. simpl. split; [by eexists|].
    split; [discriminate|]. intros [Hall _]. exfalso.
    rewrite Forall_forall in Hall.
    apply list_elem_of_lookup_2, Hall in Hx. congruence.
  - apply list_find_None in Htypes.
    assert (Forall (fun t => invalid_type t = false) column3) as Htypes'.
    { eapply Forall_impl; [exact Htypes|]. intros t Ht. simpl in Ht.
      by apply not_true_is_false. }
    destruct (filter _ fsource) as [|u unsupp] eqn:Hunsupp.
    + assert (Forall (fun f => splitext_ext f ∈ supported) fsource) as Hext.
      { apply Forall_forall. intros f Hf.
        destruct (decide (splitext_ext f ∈ supported)) as [|Hno]; [done|].
        assert (f ∈ filter (fun f => splitext_ext f ∉ supported) fsource)
          as Hin by (by apply list_elem_of_filter).
        rewrite Hunsupp in Hin. by apply elem_of_nil in Hin. }
      destruct (list_find _ fsource) as [[y fn]|] eqn:Hfiles.
      * split; [by eexists|]. split; [discriminate|]. intros [_ Hall].
        apply list_find_Some in Hfiles as (Hy & Hno & _).
        rewrite Forall_forall in Hall.
        apply list_elem_of_lookup_2, Hall in Hy. destruct Hy. congruence.
      * split; [by eexists|]. split; [|done]. intros _.
        split; [done|]. apply list_find_None in Hfiles.
        rewrite Forall_forall in Hext, Hfiles. apply Forall_forall.
        intros f Hf. split; [by apply Hext|].
        specialize (Hfiles f Hf). simpl in Hfiles.
        by apply not_false_is_true.
    + split; [by eexists|]. split; [discriminate|]. intros [_ Hall].
      assert (u ∈ filter (fun f => splitext_ext f ∉ supported) fsource)
        as Hin by (rewrite Hunsupp; left).
      apply list_elem_of_filter in Hin as [Hno Hin].
      rewrite Forall_forall in Hall. by destruct (Hall u Hin).
Qed.

End CheckToSlideFacts.

(** * Properties of the handlers of sequence_to_video.py *)

Section HandlerFacts.
Import SequenceToVideo SequenceToVideoSpec SequenceToVideoEvents.
Context {U : Utils}.

Lemma reachable_invariant c :
  reachable c → audio_consistent c.
Proof.
  induction 1 as [ts files|c _ IH|c _ IH Hen|c pathname ms _ IH Hen|c p _ IH Hsame];
    unfold audio_consistent in *; simpl in *.
  - repeat split; reflexivity.
  - destruct IH as (Hopen & Hshort & Hflag & Hoff).
    unfold on_enable_audio. simpl.
    destruct (ckbx_audio (widgets c)); simpl.
    + repeat split; reflexivity.
    + destruct (Hoff eq_refl) as (-> & _).
      repeat split; try reflexivity; intros; congruence.
  - destruct IH as (Hopen & Hshort & Hflag & Hoff).
    rewrite Hen in Hshort. unfold on_shortest. simpl.
    destruct (ckbx_shortest (widgets c)); simpl; rewrite <- Hshort;
      repeat split; try assumption; try reflexivity; intros; congruence.
  - destruct IH as (Hopen & Hshort & Hflag & Hoff).
    rewrite Hen in Hopen. unfold on_addaudio_track.
    destruct ms; simpl; rewrite <- Hopen in *;
      repeat split; try assumption; try reflexivity; intros; congruence.
  - destruct IH as (Hopen & Hshort & Hflag & Hoff).
    destruct Hsame as (-> & -> & -> & -> & -> & ->).
    split; [exact Hopen|]. split; [exact Hshort|]. split; [exact Hflag|].
    exact Hoff.
Qed.

(** X13. From the panel as [__init__] leaves it, whatever the clicks on
    the check boxes and the audio files opened, the controls stay in step
    with the audio part of [self.opt]: ["Shortest"] is enabled exactly when
    the audio box is checked and the box of the shortest is not, and
    without audio the duration, the input and the map of the audio track
    are the initial ones. *)
Theorem reachable_audio_consistent c :
  reachable c → audio_consistent c.
Proof. apply reachable_invariant. Qed.

Lemma reachable_audio_consistent_witness :
  audio_consistent
    (with_widgets
       (on_shortest (set_ckbx_shortest true
          (widgets (on_enable_audio_controls
             (with_widgets (set_ckbx_audio true (widgets (init_controls "" [])))
                (init_controls "" []))))))
       (on_enable_audio_controls
          (with_widgets (set_ckbx_audio true (widgets (init_controls "" [])))
             (init_controls "" [])))).
Proof.
  apply reachable_audio_consistent.
  apply (reach_click_shortest
           (on_enable_audio_controls
              (with_widgets (set_ckbx_audio true (widgets (init_controls "" [])))
                 (init_controls "" [])))).
  - apply (reach_click_audio (init_controls "" [])). apply reach_init.
  - reflexivity.
Defined.

(** X14. In every such state the two check boxes decide the returned
    duration: the duration of the audio track when both are checked, and
    otherwise the per-image duration, times the number of files for a
    slideshow; and the [-shortest] flag is in the command exactly when the
    audio box is checked and the other is not. *)
Theorem reachable_duration c timeline :
  reachable c →
  let p := widgets c in
  totalDurationMs (timing_of (build_command_slideshow p timeline))
  = (if ckbx_audio p && ckbx_shortest p then ADuration (opt p)
     else getms timeline * Z.of_nat (length (file_src p))) ∧
  totalDurationMs (timing_of (build_command_loop_image p timeline))
  = (if ckbx_audio p && ckbx_shortest p then ADuration (opt p)
     else getms timeline) ∧
  fst (Shortest (opt p))
  = (if ckbx_audio p && negb (ckbx_shortest p) then "-shortest" else "").
Proof.
  intros Hreach p. subst p.
  destruct (reachable_invariant c Hreach) as (_ & _ & Hflag & _).
  unfold build_command_slideshow, build_command_loop_image, timing_of.
  rewrite Hflag.
  destruct (ckbx_audio (widgets c)), (ckbx_shortest (widgets c));
    repeat split; reflexivity.
Qed.

(** *** What [get_args_line] touches *)

Lemma build_command_slideshow_again self timeline :
  let r := build_command_slideshow self timeline in
  build_command_slideshow (fst r) timeline = r.
Proof.
  unfold build_command_slideshow.
  destruct (ckbx_audio self) eqn:Haudio; [destruct (py_truthy _) eqn:Hs|];
    simpl; rewrite Haudio; try rewrite Hs; reflexivity.
Qed.

Lemma build_command_loop_image_again self timeline :
  let r := build_command_loop_image self timeline in
  build_command_loop_image (fst r) timeline = r.
Proof.
  unfold build_command_loop_image.
  destruct (ckbx_audio self) eqn:Haudio; [destruct (py_truthy _) eqn:Hs|];
    simpl; rewrite Haudio; try rewrite Hs; reflexivity.
Qed.

Lemma builders_frame self timeline r :
  r = build_command_slideshow self timeline ∨
  r = build_command_loop_image self timeline →
  ∃ clock preinput sec,
    fst r = set_opt (set_Interval (PyInt sec)
                       (set_Preinput preinput (set_Clock clock (opt self))))
              self.
Proof.
  unfold build_command_slideshow, build_command_loop_image.
  intros [-> | ->];
    (destruct (ckbx_audio self); [destruct (py_truthy _)|]);
    simpl; by do 3 eexists.
Qed.

Lemma get_args_line_twice self self' args :
  get_args_line self = Ret (self', args) →
  get_args_line self' = Ret (self', args) ∧
  ∃ clock preinput sec,
    self' = set_opt (set_Interval (PyInt sec)
                       (set_Preinput preinput (set_Clock clock (opt self))))
              self.
Proof.
  intros Hcall.
  destruct (py_split (time_seq self) !! 3%nat) as [field|] eqn:Hfield;
    [|by rewrite (get_args_line_short self Hfield) in Hcall].
  rewrite (get_args_line_field self field Hfield) in Hcall.
  injection Hcall as Hr.
  assert (∃ clock preinput sec,
            self' = set_opt (set_Interval (PyInt sec)
                       (set_Preinput preinput (set_Clock clock (opt self))))
                      self) as Hframe.
  { destruct (builders_frame self (timeline_of field) (self', args))
      as (cl & pre & sec & Hfst); [|by exists cl, pre, sec].
    destruct (ckbx_static_img self); [by right|by left]. }
  split; [|exact Hframe].
  destruct Hframe as (cl & pre & sec & Hself).
  assert (time_seq self' = time_seq self ∧
          ckbx_static_img self' = ckbx_static_img self) as [Hts Hst]
    by (by rewrite Hself).
  rewrite (get_args_line_field self' field) by (by rewrite Hts).
  rewrite Hst. f_equal.
  destruct (ckbx_static_img self).
  - pose proof (build_command_loop_image_again self (timeline_of field)) as H.
    simpl in H. by rewrite Hr in H.
  - pose proof (build_command_slideshow_again self (timeline_of field)) as H.
    simpl in H. by rewrite Hr in H.
Qed.

(** X16. A call of [get_args_line] that returns writes three keys of
    [self.opt] only, ["Clock"], ["Preinput"] and ["Interval"], and a second
    call right after it returns the same pair and changes nothing. *)
Theorem get_args_line_again self self' args :
  get_args_line self = Ret (self', args) →
  get_args_line self' = Ret (self', args) ∧
  ∃ clock preinput sec,
    self' = set_opt (set_Interval (PyInt sec)
                       (set_Preinput preinput (set_Clock clock (opt self))))
              self.
Proof. apply get_args_line_twice. Qed.

(** A call of [get_args_line] is among the events that leave the audio
    part of the panel alone. *)
Lemma get_args_line_same_audio self self' args :
  get_args_line self = Ret (self', args) → same_audio self self'.
Proof.
  intros Hcall.
  destruct (get_args_line_twice self self' args Hcall)
    as (_ & cl & pre & sec & ->).
  by repeat split.
Qed.

Lemma on_fps_same_audio val self : same_audio self (on_fps val self).
Proof. unfold on_fps. by case_decide; repeat split. Qed.

End HandlerFacts.

Section HandlerSamples.
Import SequenceToVideo SequenceToVideoSpec SequenceToVideoEvents.

Lemma reachable_duration_witness :
  let c := init_controls "-ss 00:00:00.000 -t 00:00:02.000" ["a.png"; "b.png"] in
  totalDurationMs
    (timing_of (build_command_slideshow (U:=ClockModel.model) (widgets c)
                  "00:00:02.000"))
  = 4000.
Proof.
  intros c.
  destruct (reachable_duration (U:=ClockModel.model) c "00:00:02.000")
    as (Hslide & _ & _).
  - apply reach_init.
  - exact Hslide.
Defined.

Lemma get_args_line_again_witness :
  let self := sample_panel "00:00:05.000" 3 false true shortest_disabled 12345 in
  ∃ self' args,
    get_args_line (U:=ClockModel.model) self = Ret (self', args) ∧
    get_args_line (U:=ClockModel.model) self' = Ret (self', args).
Proof.
  intros self. do 2 eexists. split; [reflexivity|].
  apply (get_args_line_again (U:=ClockModel.model) self). reflexivity.
Defined.

End HandlerSamples.

(** * Strings: dropping the last character, joining and splitting *)

Section StringFacts.
Local Open Scope list_scope.

Lemma app_String a s t : String a s +:+ t = String a (s +:+ t).
Proof. reflexivity. Qed.

Lemma string_app_assoc s t u : (s +:+ t) +:+ u = s +:+ (t +:+ u).
Proof.
  induction s as [|a s IH]; [reflexivity|]. by rewrite !app_String, IH.
Qed.

Lemma app_empty_inv s t : s +:+ t = "" → s = "" ∧ t = "".
Proof.
  destruct s; [|discriminate]. intros H. split; [reflexivity|exact H].
Qed.

Lemma drop_last_cons a s :
  s ≠ "" → drop_last (String a s) = String a (drop_last s).
Proof. by destruct s. Qed.

Lemma drop_last_app s t :
  t ≠ "" → drop_last (s +:+ t) = s +:+ drop_last t.
Proof.
  intros Ht. induction s as [|a s IH]; [reflexivity|].
  rewrite !app_String, drop_last_cons, IH; [reflexivity|].
  by intros [_ ?]%app_empty_inv.
Qed.

Lemma drop_last_snoc s c : drop_last (s +:+ String c "") = s.
Proof.
  rewrite drop_last_app by discriminate. simpl.
  induction s as [|a s IH]; [reflexivity|]. by rewrite app_String, IH.
Qed.

Lemma concat_cons2 sep (x y : string) l :
  String.concat sep (x :: y :: l) = x +:+ sep +:+ String.concat sep (y :: l).
Proof. reflexivity. Qed.

(** Joining strings that each end in a comma and dropping the last
    character is joining them with commas. *)
Lemma comma_join_nonempty (vs : list string) :
  vs ≠ [] → String.concat "" ((fun x => x +:+ ",") <$> vs) ≠ "".
Proof.
  destruct vs as [|v [|w vs]]; [done|..]; intros _.
  - simpl. by intros [_ ?]%app_empty_inv.
  - change ((fun x => x +:+ ",") <$> v :: w :: vs)
      with ((v +:+ ",") :: (w +:+ ",") :: ((fun x => x +:+ ",") <$> vs)).
    rewrite concat_cons2. by intros [[_ ?]%app_empty_inv _]%app_empty_inv.
Qed.

Lemma drop_last_comma_join (vs : list string) :
  vs ≠ [] →
  drop_last (String.concat "" ((fun x => x +:+ ",") <$> vs))
  = String.concat "," vs.
Proof.
  induction vs as [|v [|w vs] IH]; intros Hne; [done|..].
  - simpl. apply drop_last_snoc.
  - change ((fun x => x +:+ ",") <$> v :: w :: vs)
      with ((v +:+ ",") :: ((fun x => x +:+ ",") <$> w :: vs)).
    change (String.concat "" ((v +:+ ",") :: ((fun x => x +:+ ",") <$> w :: vs)))
      with ((v +:+ ",") +:+ String.concat "" ((fun x => x +:+ ",") <$> w :: vs)).
    rewrite drop_last_app by (by apply comma_join_nonempty).
    rewrite IH by done. rewrite concat_cons2.
    by rewrite string_app_assoc.
Qed.

End StringFacts.

(** * The filters of the resizing dialog *)

Section ResizingFacts.
Import SequenceToVideo SequenceToVideoEvents.
Local Open Scope list_scope.

Lemma dict_getitem_in k v (data : list (string * string)) :
  dict_getitem k data = Value v → v ∈ data.*2.
Proof.
  unfold dict_getitem.
  destruct (list_find _ data) as [[i kv]|] eqn:Hfind; [|discriminate].
  intros [= <-]. apply list_find_Some in Hfind as (Hi & _ & _).
  apply list_elem_of_fmap. exists kv. split; [reflexivity|].
  by eapply list_elem_of_lookup_2.
Qed.

Lemma dict_getitem_key k (data : list (string * string)) :
  k ∈ data.*1 → ∃ v, dict_getitem k data = Value v.
Proof.
  intros Hk. unfold dict_getitem.
  destruct (list_find _ data) as [[i kv]|] eqn:Hfind; [by eexists|].
  apply list_find_None in Hfind. rewrite Forall_forall in Hfind.
  apply list_elem_of_fmap in Hk as (kv & -> & Hkv).
  by destruct (Hfind kv Hkv).
Qed.

Lemma dict_getitem_NoDup k v (data : list (string * string)) :
  NoDup data.*1 → (k, v) ∈ data → dict_getitem k data = Value v.
Proof.
  intros Hnd Hin. unfold dict_getitem.
  destruct (list_find _ data) as [[i kv]|] eqn:Hfind.
  - apply list_find_Some in Hfind as (Hi & Hk & _). simpl in Hk.
    apply list_elem_of_lookup_1 in Hin as [j Hj].
    assert (i = j) as ->.
    { eapply NoDup_lookup; [exact Hnd|..].
      - by rewrite list_lookup_fmap, Hi.
      - by rewrite list_lookup_fmap, Hj; simpl; rewrite Hk. }
    rewrite Hi in Hj. by injection Hj as ->.
  - apply list_find_None in Hfind. rewrite Forall_forall in Hfind.
    by destruct (Hfind _ Hin).
Qed.

Lemma truthy_values_nil_iff (data : list (string * string)) :
  truthy_values data = [] ↔ ∀ v, v ∈ data.*2 → v = "".
Proof.
  unfold truthy_values. split.
  - intros Hnil v Hv. destruct v as [|a v]; [reflexivity|].
    assert (String a v ∈ filter (fun x => py_truthy x = true) data.*2) as Hin
      by (by apply list_elem_of_filter).
    rewrite Hnil in Hin. by apply elem_of_nil in Hin.
  - intros Hall. destruct (filter _ _) as [|v vs] eqn:Hf; [reflexivity|].
    assert (v ∈ filter (fun x => py_truthy x = true) data.*2) as Hin
      by (rewrite Hf; left).
    apply list_elem_of_filter in Hin as [Htrue Hin].
    apply Hall in Hin as ->. discriminate.
Qed.

(** X17. When the dialog returns the three keys ['scale'], ['setdar'] and
    ['setsar'], [on_resizing] raises nothing, stores their values, and
    leaves in ["RESIZE"] the filters that are not empty, joined by commas
    after [-vf] and without a comma at the end; ["RESIZE"] is empty exactly
    when the three filters are. *)
Theorem on_resizing_ok_filters data o :
  data.*1 ≡ₚ ["scale"; "setdar"; "setsar"] →
  ∃ o',
    on_resizing_ok data o = (o', None) ∧
    dict_getitem "scale" data = Value (Scale o') ∧
    dict_getitem "setdar" data = Value (Setdar o') ∧
    dict_getitem "setsar" data = Value (Setsar o') ∧
    RESIZE o'
    = match truthy_values data with
      | [] => ""
      | vs => "-vf " +:+ String.concat "," vs
      end ∧
    (RESIZE o' = "" ↔ Scale o' = "" ∧ Setdar o' = "" ∧ Setsar o' = "").
Proof.
  intros Hkeys.
  assert (NoDup data.*1) as Hnd.
  { rewrite Hkeys. apply (bool_decide_unpack _). vm_compute. exact I. }
  destruct (dict_getitem_key "scale" data) as [scale Hscale];
    [rewrite Hkeys; set_solver|].
  destruct (dict_getitem_key "setdar" data) as [setdar Hsetdar];
    [rewrite Hkeys; set_solver|].
  destruct (dict_getitem_key "setsar" data) as [setsar Hsetsar];
    [rewrite Hkeys; set_solver|].
  assert (∀ v, v ∈ data.*2 → v = scale ∨ v = setdar ∨ v = setsar) as Hvals.
  { intros v Hv. apply list_elem_of_fmap in Hv as ([k v'] & -> & Hkv). simpl.
    assert (k ∈ data.*1) as Hk.
    { apply list_elem_of_fmap. by exists (k, v'). }
    rewrite Hkeys in Hk.
    pose proof (dict_getitem_NoDup k v' data Hnd Hkv) as Hget.
    repeat (apply elem_of_cons in Hk as [->|Hk]);
      [left|right; left|right; right|by apply elem_of_nil in Hk]; congruence. }
  unfold on_resizing_ok. rewrite Hscale, Hsetdar, Hsetsar.
  destruct (truthy_values data) as [|v vs] eqn:Htruthy.
  - pose proof (proj1 (truthy_values_nil_iff data) Htruthy) as Hempty.
    assert (scale = "") as -> by (by eapply Hempty, dict_getitem_in).
    assert (setdar = "") as -> by (by eapply Hempty, dict_getitem_in).
    assert (setsar = "") as -> by (by eapply Hempty, dict_getitem_in).
    eexists. split; [reflexivity|]. simpl. by repeat split.
  - rewrite drop_last_comma_join by done.
    assert (py_truthy v = true) as Hv.
    { assert (v ∈ truthy_values data) as Hin by (rewrite Htruthy; left).
      unfold truthy_values in Hin.
      by apply list_elem_of_filter in Hin as [? _]. }
    assert (py_truthy (String.concat "," (v :: vs)) = true) as ->.
    { destruct v as [|a v]; [discriminate|]. by destruct vs. }
    eexists. split; [reflexivity|]. simpl.
    repeat split; try done.
    intros (-> & -> & ->).
    assert (v ∈ truthy_values data) as Hin by (rewrite Htruthy; left).
    unfold truthy_values in Hin.
    apply list_elem_of_filter in Hin as [_ Hin].
    destruct (Hvals v Hin) as [->|[->| ->]]; discriminate.
Qed.

Lemma on_resizing_ok_filters_witness :
  ∃ o',
    on_resizing_ok
      [("scale", "scale=w=640:h=480"); ("setdar", ""); ("setsar", "setsar=1/1")]
      init_opt = (o', None) ∧
    RESIZE o' = "-vf scale=w=640:h=480,setsar=1/1".
Proof.
  destruct (on_resizing_ok_filters
              [("scale", "scale=w=640:h=480"); ("setdar", "");
               ("setsar", "setsar=1/1")] init_opt)
    as (o' & Hres & _ & _ & _ & Hresize & _).
  - reflexivity.
  - exists o'. split; [exact Hres|exact Hresize].
Defined.

End ResizingFacts.

(** * The list of files of the concat demuxer *)

Section ConcatenateListFacts.
Import ConcatenateList.
Local Open Scope list_scope.

Lemma unescape_escape f : unescape (escape f) = f.
Proof.
  unfold escape. induction f as [|a f IH]; [reflexivity|].
  simpl replace_char. case_decide as Ha.
  - subst a. change ("'\''" +:+ ?s) with (String "'" (String "\" (String "'" (String "'" s)))).
    simpl. by rewrite IH.
  - destruct a as [[] [] [] [] [] [] [] []]; try (by destruct Ha);
      simpl; by rewrite IH.
Qed.

(** X18. The escaping of the single quotes loses nothing: two file names
    with the same escaped form are the same name, so two files never
    share a line of the list. *)
Theorem escape_inj f g : escape f = escape g → f = g.
Proof.
  intros Heq. by rewrite <- (unescape_escape f), Heq, unescape_escape.
Qed.

Lemma escape_inj_witness : "it's.mp4" = "it's.mp4".
Proof. apply (escape_inj "it's.mp4" "it's.mp4"). reflexivity. Defined.

Lemma char_free_app c s t :
  char_free c (s +:+ t) = char_free c s && char_free c t.
Proof.
  induction s as [|a s IH]; [reflexivity|].
  rewrite app_String. simpl. by rewrite IH, andb_assoc.
Qed.

Lemma char_free_escape f :
  char_free (ascii_of_nat 10) f = true →
  char_free (ascii_of_nat 10) (escape f) = true.
Proof.
  unfold escape. induction f as [|a f IH]; [reflexivity|].
  simpl. intros [Ha Hf]%andb_true_iff.
  destruct (decide (a = "'"%char)) as [_|_].
  - rewrite char_free_app, IH by exact Hf. reflexivity.
  - simpl. by rewrite Ha, IH.
Qed.

Lemma split_on_free c s :
  char_free c s = true → ClockModel.split_on c s = [s].
Proof.
  induction s as [|a s IH]; [reflexivity|].
  simpl. intros [Ha Hs]%andb_true_iff.
  apply negb_true_iff, bool_decide_eq_false in Ha.
  rewrite decide_False by exact Ha. by rewrite IH.
Qed.

Lemma split_on_app c s t :
  char_free c s = true →
  ClockModel.split_on c (s +:+ String c t) = s :: ClockModel.split_on c t.
Proof.
  induction s as [|a s IH]; intros Hs.
  - change ("" +:+ String c t) with (String c t). simpl.
    by rewrite decide_True.
  - rewrite app_String. simpl in *.
    apply andb_true_iff in Hs as [Ha Hs].
    apply negb_true_iff, bool_decide_eq_false in Ha.
    rewrite decide_False by exact Ha. by rewrite IH.
Qed.

Lemma split_on_join c (lines : list string) :
  lines ≠ [] →
  Forall (fun l => char_free c l = true) lines →
  ClockModel.split_on c (String.concat (String c "") lines) = lines.
Proof.
  induction lines as [|l [|m lines] IH]; intros Hne Hfree; [done|..].
  - apply Forall_cons in Hfree as [Hl _]. by apply split_on_free.
  - apply Forall_cons in Hfree as [Hl Hfree].
    rewrite concat_cons2.
    change (String c "" +:+ ?s) with (String c s).
    rewrite split_on_app by exact Hl. by rewrite IH.
Qed.

(** X19. When no file name holds a line feed, the text written to the
    list splits at the line feeds into one line for each source file, in
    the order of the files, each the word [file] and the escaped name in
    single quotes. *)
Theorem flist_text_lines file_src :
  file_src ≠ [] →
  Forall (fun f => char_free (ascii_of_nat 10) f = true) file_src →
  ClockModel.split_on (ascii_of_nat 10) (flist_text file_src)
  = flist_entry <$> file_src.
Proof.
  intros Hne Hfree. unfold flist_text.
  change newline with (String (ascii_of_nat 10) "").
  apply split_on_join.
  - by destruct file_src.
  - apply Forall_fmap. eapply Forall_impl; [exact Hfree|].
    intros f Hf. unfold flist_entry. simpl.
    rewrite !char_free_app, char_free_escape by exact Hf. reflexivity.
Qed.

Lemma flist_text_lines_witness :
  ClockModel.split_on (ascii_of_nat 10) (flist_text ["a.mp4"; "it's.mp4"])
  = ["file 'a.mp4'"; "file 'it'\''s.mp4'"].
Proof.
  apply (flist_text_lines ["a.mp4"; "it's.mp4"]).
  - discriminate.
  - repeat constructor.
Defined.

End ConcatenateListFacts.

Section CheckToSlideSamples.
Import SequenceToVideoPanel PanelSamples.

Lemma check_to_slide_as_check_to_loop_witness :
  (∃ c, check_to_slide ["video sequence"; "video sequence"] ["a.png"; "b.jpg"]
        = Value c) ∧
  (check_to_slide ["video sequence"; "video sequence"] ["a.png"; "b.jpg"]
   = Value Passed ↔
   Forall2 (fun t f => check_to_loop t f = Passed)
     ["video sequence"; "video sequence"] ["a.png"; "b.jpg"]).
Proof.
  apply (check_to_slide_as_check_to_loop (O:=sample_os)
           ["video sequence"; "video sequence"] ["a.png"; "b.jpg"]).
  reflexivity.
Defined.

Example check_to_slide_text_file :
  check_to_slide ["video sequence"; "video sequence"] ["a.png"; "notes.txt"]
  = Value (Rejected (msg_unsupported ".txt")) ∧
  check_to_slide ["video sequence"; "audio"] ["a.png"; "b.jpg"]
  = Value (Rejected (msg_invalid_file "b.jpg")) ∧
  check_to_slide ["video sequence"] ["gone.png"]
  = Value (Rejected (msg_missing "gone.png")) ∧
  check_to_slide ["video sequence"] ["README"]
  = Value (Rejected (msg_unsupported "")).
Proof. repeat split; reflexivity. Qed.

Example posix_splitext_ext_samples :
  posix_splitext_ext "gone.png" = ".png" ∧
  posix_splitext_ext "/films/part.1/intro.tar.gz" = ".gz" ∧
  posix_splitext_ext "/films/part.1/intro" = "" ∧
  posix_splitext_ext ".hidden" = "" ∧
  posix_splitext_ext "..mkv" = "" ∧
  posix_splitext_ext "intro." = ".".
Proof. repeat split; reflexivity. Qed.

End CheckToSlideSamples.

(** * [on_start] of the slideshow panel *)

Section OnStartFacts.
Import Concatenate SequenceToVideo SequenceToVideoPanel SequenceToVideoStart.
Context {U : Utils} {O : OsPath} {D : OsDirs}.
Local Open Scope list_scope.

(** A call of [on_start] that starts a job went through the selection,
    the checks and [get_args_line], and the dialog was confirmed. *)
Lemma on_start_launched self env st j :
  on_start self env = Value st →
  launched st = Some j →
  ∃ fget files countmax self' args,
    file_selection self (filedropselected env) = Value (Some fget) ∧
    on_start_checks self env fget = Value (Passed, files, countmax) ∧
    get_args_line self = Ret (self', args) ∧
    dialog_ok env = true ∧
    panel_after st = self' ∧
    job_files j = files ∧ job_countmax j = countmax ∧
    job_duration j = snd args ∧
    job_commands j = (RESIZE (opt self'), fst args) ∧
    job_preinput j = Preinput (opt self').
Proof.
  unfold on_start. intros Hstart Hjob.
  destruct (file_selection self (filedropselected env)) as [[fget|]|e];
    simpl in Hstart; [| |discriminate].
  2: { injection Hstart as <-. discriminate. }
  destruct (on_start_checks self env fget) as [[[verdict files] countmax]|e]
    eqn:Hchecks; simpl in Hstart; [|discriminate].
  destruct verdict as [|msg].
  2: { injection Hstart as <-. discriminate. }
  destruct (get_args_line self) as [[self' args]|[]] eqn:Hargs;
    simpl in Hstart; [|discriminate].
  injection Hstart as <-. simpl in Hjob.
  destruct (dialog_ok env); [|discriminate]. injection Hjob as <-.
  exists fget, files, countmax, self', args. by repeat split.
Qed.

(** X20. A job that [on_start] starts has passed the checks of its mode.
    For a static video it has the selected file alone, a count of 1, and
    that file passes [check_to_loop] with the text of its row. For a
    slideshow it has the files of the main frame and their number,
    [check_to_slide] passes, and either a resizing is set, or there is
    one file, or [check_images_size] passes. *)
Theorem on_start_job_checked self env st j :
  on_start self env = Value st →
  launched st = Some j →
  length (job_files j) = job_countmax j ∧
  (ckbx_static_img self = true →
   ∃ f i, file_selection self (filedropselected env) = Value (Some (f, i)) ∧
          job_files j = [f] ∧
          check_to_loop (item_text env i) f = Passed) ∧
  (ckbx_static_img self = false →
   job_files j = file_src self ∧
   check_to_slide (item_text env <$> seq 0 (item_count env)) (file_src self)
   = Value Passed ∧
   (py_truthy (RESIZE (opt self)) = true ∨
    length (file_src self) = 1%nat ∨
    check_images_size (data_files env) = Value Passed)).
Proof.
  intros Hstart Hjob.
  destruct (on_start_launched self env st j Hstart Hjob)
    as ([f i] & files & countmax & self' & args & Hsel & Hchecks & _ & _ & _
        & -> & -> & _).
  unfold on_start_checks in Hchecks.
  destruct (ckbx_static_img self).
  - injection Hchecks as Hloop <- <-. simpl in Hloop.
    split; [reflexivity|]. split; [|discriminate].
    intros _. by exists f, i.
  - destruct (check_to_slide _ _) as [[|msg]|e] eqn:Hslide;
      simpl in Hchecks; try discriminate.
    destruct (py_truthy (RESIZE (opt self))) eqn:Hresize; simpl in Hchecks.
    + injection Hchecks as <- <-. split; [reflexivity|].
      split; [discriminate|]. intros _. repeat split. by left.
    + case_bool_decide as Hone; simpl in Hchecks.
      * injection Hchecks as <- <-. split; [reflexivity|].
        split; [discriminate|]. intros _. repeat split. right. by left.
      * destruct (check_images_size (data_files env)) as [sizes|e] eqn:Hsizes;
          simpl in Hchecks; [|discriminate].
        injection Hchecks as -> <- <-. split; [reflexivity|].
        split; [discriminate|]. intros _. repeat split. right. by right.
Qed.

(** X21. Without an audio track, the duration of a job that [on_start]
    starts is the per-image duration times the count of the job, in both
    modes. *)
Theorem on_start_duration_no_audio self env st j :
  on_start self env = Value st →
  launched st = Some j →
  ckbx_audio self = false →
  ∃ field,
    py_split (time_seq self) !! 3%nat = Some field ∧
    job_duration j
    = getms (timeline_of field) * Z.of_nat (job_countmax j).
Proof.
  intros Hstart Hjob Haudio.
  destruct (on_start_launched self env st j Hstart Hjob)
    as (fget & files & countmax & self' & args & _ & Hchecks & Hargs & _ & _
        & _ & -> & -> & _).
  destruct (py_split (time_seq self) !! 3%nat) as [field|] eqn:Hfield;
    [|by rewrite (get_args_line_short self Hfield) in Hargs].
  exists field. split; [reflexivity|].
  rewrite (get_args_line_field self field Hfield) in Hargs.
  injection Hargs as Hargs.
  unfold on_start_checks in Hchecks.
  destruct (ckbx_static_img self).
  - injection Hchecks as _ _ <-.
    pose proof (loop_image_by_timeline self (timeline_of field) Haudio) as Ht.
    rewrite Hargs in Ht. apply (f_equal totalDurationMs) in Ht.
    simpl in Ht. rewrite Ht. lia.
  - assert (countmax = length (file_src self)) as ->.
    { destruct (check_to_slide _ _) as [[|msg]|e]; simpl in Hchecks;
        try discriminate.
      destruct (_ && _); simpl in Hchecks.
      - destruct (check_images_size _); simpl in Hchecks; [|discriminate].
        by injection Hchecks as _ _ <-.
      - by injection Hchecks as _ <-. }
    pose proof (slideshow_by_images self (timeline_of field) (or_introl Haudio))
      as Ht.
    rewrite Hargs in Ht. apply (f_equal totalDurationMs) in Ht.
    simpl in Ht. by rewrite Ht.
Qed.

(** X22. [on_start] makes the output directory as soon as a file is
    selected, before any check: whenever it returns with a selected file,
    the directory has been made, also when a check rejects the files or
    the dialog is cancelled; and nothing is made or started without a
    selection. *)
Theorem on_start_made_dir self env st :
  on_start self env = Value st →
  (file_selection self (filedropselected env) = Value None →
   made_dir st = None ∧ launched st = None ∧ panel_after st = self) ∧
  (∀ fget, file_selection self (filedropselected env) = Value (Some fget) →
   made_dir st
   = Some (make_newdir_with_id
             (if same_destin env then dirname (fst fget)
              else outpath_ffmpeg env) "Still-Images_1")).
Proof.
  unfold on_start. intros Hstart.
  destruct (file_selection self (filedropselected env)) as [[fget|]|e];
    simpl in Hstart; [| |discriminate].
  - split; [discriminate|]. intros ? [= <-].
    destruct (on_start_checks self env fget) as [[[verdict files] countmax]|e];
      simpl in Hstart; [|discriminate].
    destruct verdict as [|msg]; [|by injection Hstart as <-].
    destruct (get_args_line self) as [[self' args]|[]]; simpl in Hstart;
      [|discriminate].
    by injection Hstart as <-.
  - injection Hstart as <-. split; [done|]. discriminate.
Qed.

End OnStartFacts.

(** * [on_start] of the concat demuxer panel *)

Section ConcatenateStartFacts.
Import Concatenate ConcatenateList SequenceToVideoPanel ConcatenateStart.
Context {O : OsPath}.
Local Open Scope list_scope.

(** X23. Up to the point where it opens the list for writing,
    [on_start] gets to the list of files only when [compare_media_param]
    passes, hence on at least two probed files; otherwise it returns
    after the message of the check. Up to that point it raises an
    [IndexError], and nothing else, exactly when the check passes and
    either there is no source file or the extension of the first one,
    split at the dots, has no second field. *)
Theorem concat_on_start_outcomes ftext data_files file_src durations :
  let r := on_start ftext data_files file_src durations in
  (∀ diff, r = Value (inl diff) ↔ compare_media_param data_files = Some diff) ∧
  (∀ p, r = Value (inr p) →
     compare_media_param data_files = None ∧
     (2 ≤ length data_files)%nat ∧
     list_text p = flist_text file_src ∧
     args p = concat_args ftext ∧
     duration p = foldr Z.add 0 durations) ∧
  (∀ e, r = Raised e ↔
     e = Exception_IndexError ∧
     compare_media_param data_files = None ∧
     (file_src = [] ∨
      ∃ first, head file_src = Some first ∧
        (length (ClockModel.split_on "." (splitext_ext first)) < 2)%nat)).
Proof.
  intros r. subst r. unfold on_start.
  destruct (compare_media_param data_files) as [diff|] eqn:Hcmp.
  - split; [|split].
    + intros d. split; congruence.
    + intros p [=].
    + intros e. split; [discriminate|]. by intros (_ & ? & _).
  - assert (2 ≤ length data_files)%nat as Hlen.
    { destruct data_files as [|f [|g data_files]];
        [discriminate Hcmp|discriminate Hcmp|simpl; lia]. }
    destruct file_src as [|first file_src]; simpl.
    { split; [|split].
      - intros d. split; discriminate.
      - intros p [=].
      - intros e. split; [intros [= <-]; by repeat split; try left|].
        by intros (-> & _). }
    unfold list_getitem.
    destruct (ClockModel.split_on "." (splitext_ext first) !! 1%nat)
      as [x|] eqn:Hext; simpl.
    + apply lookup_lt_Some in Hext. split; [|split].
      * intros d. split; discriminate.
      * intros p [= <-]. by repeat split.
      * intros e. split; [discriminate|].
        intros (_ & _ & [?|(f & [= <-] & Hshort)]); [done|lia].
    + apply lookup_ge_None in Hext. split; [|split].
      * intros d. split; discriminate.
      * intros p [=].
      * intros e. split; [|by intros (-> & _)].
        intros [= <-]. repeat split. right. exists first. split; [done|lia].
Qed.

End ConcatenateStartFacts.

Section OnStartSamples.
Import Concatenate ConcatenateSpec SequenceToVideo SequenceToVideoPanel.
Import SequenceToVideoStart ConcatenateStart PanelSamples.
Local Open Scope list_scope.

Lemma sample_slideshow_started :
  ∃ st j,
    SequenceToVideoStart.on_start (U:=ClockModel.model) (sample_self false)
      sample_env = Value st ∧
    launched st = Some j ∧ job_countmax j = 2%nat.
Proof. do 2 eexists. split; [reflexivity|]. split; reflexivity. Qed.

Lemma on_start_job_checked_witness :
  ∃ st j,
    SequenceToVideoStart.on_start (U:=ClockModel.model) (sample_self false)
      sample_env = Value st ∧
    launched st = Some j ∧
    job_files j = ["a.png"; "b.jpg"] ∧ job_countmax j = 2%nat.
Proof.
  destruct sample_slideshow_started as (st & j & Hst & Hj & Hcount).
  exists st, j. split; [exact Hst|]. split; [exact Hj|].
  destruct (on_start_job_checked (U:=ClockModel.model) (sample_self false)
              sample_env st j Hst Hj) as (Hlen & _ & Hslide).
  destruct (Hslide eq_refl) as (Hfiles & _).
  split; [exact Hfiles|]. by rewrite <- Hlen, Hfiles.
Defined.

Lemma on_start_duration_no_audio_witness :
  ∃ st j,
    SequenceToVideoStart.on_start (U:=ClockModel.model) (sample_self false)
      sample_env = Value st ∧
    launched st = Some j ∧ job_duration j = 4000.
Proof.
  destruct sample_slideshow_started as (st & j & Hst & Hj & Hcount).
  exists st, j. split; [exact Hst|]. split; [exact Hj|].
  destruct (on_start_duration_no_audio (U:=ClockModel.model)
              (sample_self false) sample_env st j Hst Hj eq_refl)
    as (field & Hfield & Hduration).
  injection Hfield as <-.
  rewrite Hduration, Hcount. reflexivity.
Defined.

Lemma on_start_made_dir_witness :
  ∃ st,
    SequenceToVideoStart.on_start (U:=ClockModel.model) (sample_self false)
      sample_env = Value st ∧
    made_dir st = Some "/pictures/Still-Images_1".
Proof.
  destruct sample_slideshow_started as (st & j & Hst & Hj & Hcount).
  exists st. split; [exact Hst|].
  destruct (on_start_made_dir (U:=ClockModel.model) (sample_self false)
              sample_env st Hst) as (_ & Hdir).
  apply (Hdir ("b.jpg", 1%nat)). reflexivity.
Defined.

(** Two images of different sizes and no resizing: the slideshow is not
    started, and the new directory stays behind. *)
Example on_start_rejected_leaves_dir :
  SequenceToVideoStart.on_start (U:=ClockModel.model) (sample_self false)
    {| filedropselected := Some "b.jpg"; item_count := 2;
       item_text := fun _ => "video sequence";
       data_files := [sample_image "a.png" 640 480; sample_image "b.jpg" 800 600];
       same_destin := true; outpath_ffmpeg := "/out"; dialog_ok := true |}
  = Value {| panel_after := sample_self false;
             made_dir := Some "/pictures/Still-Images_1";
             launched := None |}.
Proof. reflexivity. Qed.

Lemma concat_on_start_outcomes_witness :
  ConcatenateStart.on_start "/cache/flist.txt"
    [sample_file "/films/intro" [video_stream 1920 1080];
     sample_file "/films/b.mkv" [video_stream 1920 1080]]
    ["/films/intro"; "/films/b.mkv"] [10; 20]
  = Raised Exception_IndexError ∧
  ∃ p, ConcatenateStart.on_start "/cache/flist.txt" [clip_a; clip_b]
         ["a.mkv"; "b.mkv"] [10; 20] = Value (inr p) ∧
       list_text p = "file 'a.mkv'" +:+ newline +:+ "file 'b.mkv'" ∧
       duration p = 30.
Proof.
  split.
  - destruct (concat_on_start_outcomes "/cache/flist.txt"
                [sample_file "/films/intro" [video_stream 1920 1080];
                 sample_file "/films/b.mkv" [video_stream 1920 1080]]
                ["/films/intro"; "/films/b.mkv"] [10; 20]) as (_ & _ & Hraise).
    apply Hraise. split; [reflexivity|]. split; [reflexivity|].
    right. exists "/films/intro". split; [reflexivity|]. simpl. lia.
  - eexists. split; [reflexivity|].
    destruct (concat_on_start_outcomes "/cache/flist.txt" [clip_a; clip_b]
                ["a.mkv"; "b.mkv"] [10; 20]) as (_ & Hvalue & _).
    destruct (Hvalue _ eq_refl) as (_ & _ & Htext & _ & Hduration).
    split; [exact Htext|exact Hduration].
Defined.

Example concat_on_start_two_clips :
  ConcatenateStart.on_start "/cache/flist.txt" [clip_a; clip_b] ["a.mkv"; "b.mkv"] [10; 20]
  = Value (inr {| list_text := "file 'a.mkv'" +:+ newline +:+ "file 'b.mkv'";
                  args := concat_args "/cache/flist.txt";
                  duration := 30; ext := "mkv" |}).
Proof. reflexivity. Qed.

End OnStartSamples.
